(** * go_hubspot: pagination and batching of the engagements, owners and
      associations endpoints

    A shallow embedding of [Engagements.go] and of the files of the package
    that hold [GetOwners] and [BatchGetAssociations].  The functions are
    methods of a [Service] whose transport ([httpRequest]) and batch cutter
    ([batches]) are fields of the receiver; every call threads a state that
    holds the remote side, the log of the exchanges made so far and what was
    printed.  Loops that follow the answers of the remote side take the
    number of iterations they may make. *)

From stdpp Require Import gmap strings list fin_maps pretty.

Set Warnings "-abstract-large-number,-register-all".

(** ** Values of the wire format *)

(** [time.Time], kept as an opaque instant. *)
Definition Time := Z.

(** [errortools.Error]: only the message is looked at. *)
Record Error := ErrorMessage { Message : string }.

(** [http.Response], of which the package reads the status code only. *)
Record Response := { StatusCode : Z }.

Definition StatusMultiStatus : Z := 207.
Definition MethodGet : string := "GET".
Definition MethodPost : string := "POST".
Definition MethodPatch : string := "PATCH".

(** Modelled from the spec: [Paging] is declared in a file of the package
    that is not embedded here.  The list functions test the pointer for nil
    and read [Paging.Next.After], the cursor of the next page. *)
Module PagingNext.
Record t := { After : string }.
End PagingNext.

Record Paging := { Next : PagingNext.t }.

Record Association := { Association_Id : string; Association_Type : string }.

Record AssociationsSet := { AssociationsSet_Results : list Association }.

Record AssociationType := { Category : string; TypeId : Z; Label : string }.

Record AssociationV4To := { ToObjectId : Z; AssociationTypes : list AssociationType }.

Record AssociationV4 := { From_Id : string; To : list AssociationV4To }.

Module AssociationsV4Set.
Record t := { Results : list AssociationV4 }.
Definition zero : t := {| Results := [] |}.
End AssociationsV4Set.

Definition EngagementType := string.

(** Modelled from the spec: [ObjectType] is declared in a file of the
    package that is not embedded here; it is formatted with [%s] like the
    string type [EngagementType]. *)
Definition ObjectType := string.

Definition EngagementTypeCall : EngagementType := "call".
Definition EngagementTypeCommunication : EngagementType := "communication".
Definition EngagementTypeEmail : EngagementType := "email".
Definition EngagementTypeMeeting : EngagementType := "meeting".
Definition EngagementTypeNote : EngagementType := "note".
Definition EngagementTypePostalMail : EngagementType := "postal_mail".
Definition EngagementTypeTask : EngagementType := "task".

Module Engagement.
Record t := {
  Id : string;
  Properties : gmap string string;
  CreatedAt : string;
  UpdatedAt : string;
  Archived : bool;
  Associations : gmap string AssociationsSet
}.
Definition zero : t :=
  {| Id := ""; Properties := ∅; CreatedAt := ""; UpdatedAt := "";
     Archived := false; Associations := ∅ |}.
End Engagement.

Module EngagementsResponse.
Record t := { Results : list Engagement.t; Paging : option Paging }.
Definition zero : t := {| Results := []; Paging := None |}.
End EngagementsResponse.

Record OwnerTeam := { OwnerTeam_Id : Z; OwnerTeam_Name : string }.

Module Owner.
Record t := {
  FirstName : string;
  LastName : string;
  CreatedAt : string;
  Archived : bool;
  Teams : list OwnerTeam;
  Id : string;
  Email : string;
  UpdatedAt : string
}.
End Owner.

Module OwnersResponse.
Record t := { Results : list Owner.t; Paging : option Paging }.
Definition zero : t := {| Results := []; Paging := None |}.
End OwnersResponse.

(** The innermost error entries of a batch response. *)
Record BatchSubError := {
  SubError_SubCategory : string;
  SubError_Code : string;
  SubError_In : string;
  SubError_MissingScopes : list string;
  SubError_Message : string
}.

Record BatchError := {
  BatchError_SubCategory : string;
  BatchError_Context : gmap string string;
  BatchError_Links : gmap string string;
  BatchError_Id : string;
  BatchError_Category : string;
  BatchError_Message : string;
  BatchError_Errors : list BatchSubError;
  BatchError_Status : string
}.

Module BatchEngagementsResponse.
Record t := {
  CompletedAt : option Time;
  NumErrors : Z;
  RequestedAt : option Time;
  StartedAt : option Time;
  Links : gmap string string;
  Results : list Engagement.t;
  Errors : list BatchError;
  Status : string
}.
Definition zero : t :=
  {| CompletedAt := None; NumErrors := 0; RequestedAt := None;
     StartedAt := None; Links := ∅; Results := []; Errors := [];
     Status := "" |}.
End BatchEngagementsResponse.

(** ** Configurations *)

Module ListEngagementsConfig.
Record t := {
  Type_ : EngagementType;
  Limit : option N;
  After : option string;
  Properties : option (list string);
  Associations : option (list string);
  Archived : option bool
}.
End ListEngagementsConfig.

Module GetOwnersConfig.
Record t := {
  Limit : option N;
  After : option string;
  Email : option string
}.
End GetOwnersConfig.

Module UpdateEngagementConfig.
(** A Go map is [nil] or a finite map: [None] is the nil map. *)
Record t := {
  Type_ : EngagementType;
  EngagementId : string;
  Properties : option (gmap string string)
}.
End UpdateEngagementConfig.

Module BatchGetAssociationsConfig.
Record t := {
  FromObjectType : ObjectType;
  ToObjectType : ObjectType;
  Ids : list string
}.
End BatchGetAssociationsConfig.

(** Modelled from the spec: [SearchObjectsConfig] is declared in a file of
    the package that is not embedded here.  [SearchEngagements] reads and
    writes its [After] field (a [*string]); the filter and sort criteria of
    the request body are kept as one opaque component. *)
Module SearchObjectsConfig.
Record t := {
  After : option string;
  Criteria : list (string * string)
}.
End SearchObjectsConfig.

(** Modelled from the spec: [BatchObjectsConfig] is declared in a file of
    the package that is not embedded here.  The batch functions read
    [ObjectType] and slice [Inputs]; an input item is an identifier with its
    properties. *)
Record BatchObjectInput := {
  Input_Id : string;
  Input_Properties : gmap string string
}.

Module BatchObjectsConfig.
Record t := {
  ObjectType_ : ObjectType;
  Inputs : list BatchObjectInput
}.
End BatchObjectsConfig.

(** ** Requests *)

(** [url.Values]: [Set] replaces the values of a key by a single one. *)
Abbreviation Values := (gmap string (list string)).

Definition Values_Set (key value : string) (values : Values) : Values :=
  <[key := [value]]> values.

(** The path handed to [urlCrm]/[urlV4]: a plain endpoint, or
    [fmt.Sprintf("%s?%s", endpoint, values.Encode())], kept unencoded. *)
Inductive Path :=
| Plain (endpoint : string)
| WithQuery (endpoint : string) (values : Values).

(** Modelled from the spec: [service.urlCrm] and [service.urlV4] are
    methods defined in a file of the package that is not embedded here;
    they prefix the path with the base of the CRM and of the v4 API.  The
    URL is kept as the method applied to its path. *)
Inductive URL :=
| urlCrm (path : Path)
| urlV4 (path : Path).

(** What [BodyModel] holds at the call sites of the package. *)
Inductive Body :=
| NoBody
| SearchBody (config : SearchObjectsConfig.t)
| InputsBody (inputs : list string)
| PropertiesBody (properties : gmap string string)
| BatchObjectsBody (inputs : list BatchObjectInput).

Record RequestConfig := {
  Method : string;
  Url : URL;
  BodyModel : Body
}.

(** The type behind the [ResponseModel] pointer of a request. *)
Inductive ModelKind :=
| KNone
| KEngagement
| KEngagementsResponse
| KOwnersResponse
| KAssociationsV4Set
| KBatchEngagementsResponse.

Definition ModelOf (k : ModelKind) : Type :=
  match k with
  | KNone => unit
  | KEngagement => Engagement.t
  | KEngagementsResponse => EngagementsResponse.t
  | KOwnersResponse => OwnersResponse.t
  | KAssociationsV4Set => AssociationsV4Set.t
  | KBatchEngagementsResponse => BatchEngagementsResponse.t
  end.

(** What one call of [httpRequest] gives back: the raw response, the
    response model after the call, and the error. *)
Record Outcome (k : ModelKind) := {
  response : option Response;
  model : ModelOf k;
  err : option Error
}.
Arguments response {k} _.
Arguments model {k} _.
Arguments err {k} _.

Record Batch := { startIndex : nat; endIndex : nat }.

(** Modelled from the spec: the receiver [Service] and its methods
    [httpRequest] and [batches] are defined in files of the package that are
    not embedded here.  They are fields of the receiver, so every property
    below holds for any transport and any way of cutting batches.
    [httpRequest] executes one request against the remote side, whose state
    is [World], and decodes the response into the model it is given. *)
Record Service := {
  World : Type;
  httpRequest : ∀ k, World → RequestConfig → ModelOf k → World * Outcome k;
  batches : nat → list Batch
}.

(** One logged exchange: the request and what came back. *)
Record Exchange := {
  request : RequestConfig;
  kind : ModelKind;
  outcome : Outcome kind
}.

Inductive Printed :=
| PrintErrors (errors : list BatchError)
| PrintBatch (start : nat).

Record State (service : Service) := {
  server : World service;
  log : list Exchange;
  stdout : list Printed
}.
Arguments server {service} _.
Arguments log {service} _.
Arguments stdout {service} _.

(** How a call ends: it returns, it panics, or the loop has not finished
    within the given number of iterations. *)
Inductive Run (service : Service) (A : Type) :=
| Returned (a : A) (st : State service)
| Panicked (reason : string) (st : State service)
| OutOfFuel (st : State service).
Arguments Returned {service A} _ _.
Arguments Panicked {service A} _ _.
Arguments OutOfFuel {service A} _.

Definition nilDereference : string :=
  "invalid memory address or nil pointer dereference".
Definition sliceOutOfRange : string := "slice bounds out of range".

Section Calls.
Context (service : Service).

(** [service.httpRequest(&requestConfig)] with [ResponseModel] pointing at
    a variable that holds [m]. *)
Definition call (k : ModelKind) (requestConfig : RequestConfig)
    (m : ModelOf k) (st : State service) : State service * Outcome k :=
  let '(w, out) := httpRequest service k (server st) requestConfig m in
  ({| server := w;
      log := log st ++ [{| request := requestConfig; outcome := out |}];
      stdout := stdout st |}, out).

Definition Println (p : Printed) (st : State service) : State service :=
  {| server := server st; log := log st; stdout := stdout st ++ [p] |}.

(** *** Engagements.go *)

(** The query parameters that [ListEngagements] derives from a non-nil
    configuration, before the loop. *)
Definition ListEngagements_values (config : ListEngagementsConfig.t)
    (values : Values) : Values :=
  let values :=
    match ListEngagementsConfig.Limit config with
    | Some limit => Values_Set "limit" (pretty limit) values
    | None => values
    end in
  let _properties : list string :=
    match ListEngagementsConfig.Properties config with
    | Some properties =>
        if decide (0 < length properties) then [] ++ properties else []
    | None => []
    end in
  let values :=
    if decide (0 < length _properties)
    then Values_Set "properties" (String.concat "," _properties) values
    else values in
  let values :=
    match ListEngagementsConfig.Associations config with
    | Some associations =>
        if decide (0 < length associations)
        then Values_Set "associations" (String.concat "," associations) values
        else values
    | None => values
    end in
  match ListEngagementsConfig.Archived config with
  | Some archived =>
      Values_Set "archived" (if archived then "true" else "false") values
  | None => values
  end.

(** The [for] loop of [ListEngagements]; [after], [values] and
    [engagements] are the variables the loop updates. *)
Fixpoint ListEngagements_loop (fuel : nat)
    (config : option ListEngagementsConfig.t) (endpoint : string)
    (after : string) (values : Values) (engagements : list Engagement.t)
    (st : State service)
    : Run service (option (list Engagement.t) * option Error) :=
  match fuel with
  | 0 => OutOfFuel st
  | S fuel =>
      let values :=
        if decide (after ≠ "") then Values_Set "after" after values
        else values in
      let requestConfig :=
        {| Method := MethodGet;
           Url := urlCrm (WithQuery endpoint values);
           BodyModel := NoBody |} in
      let '(st, out) :=
        call KEngagementsResponse requestConfig EngagementsResponse.zero st in
      let engagementsResponse : EngagementsResponse.t := model out in
      match err out with
      | Some e => Returned (None, Some e) st
      | None =>
          let engagements :=
            engagements ++ EngagementsResponse.Results engagementsResponse in
          let explicit :=
            match config with
            | Some config =>
                bool_decide (ListEngagementsConfig.After config ≠ None)
            | None => false
            end in
          if explicit then Returned (Some engagements, None) st
          else
            match EngagementsResponse.Paging engagementsResponse with
            | None => Returned (Some engagements, None) st
            | Some paging =>
                if decide (PagingNext.After (Next paging) = "")
                then Returned (Some engagements, None) st
                else ListEngagements_loop fuel config endpoint
                       (PagingNext.After (Next paging)) values engagements st
            end
      end
  end.

(** [config.Type] is read before the guard [config != nil]. *)
Definition ListEngagements (fuel : nat)
    (config : option ListEngagementsConfig.t) (st : State service)
    : Run service (option (list Engagement.t) * option Error) :=
  let values : Values := ∅ in
  match config with
  | None => Panicked nilDereference st
  | Some dereferenced =>
      let endpoint := "objects/" +:+ ListEngagementsConfig.Type_ dereferenced in
      let after := "" in
      let '(values, after) :=
        match config with
        | Some config =>
            (ListEngagements_values config values,
             match ListEngagementsConfig.After config with
             | Some a => a
             | None => after
             end)
        | None => (values, after)
        end in
      ListEngagements_loop fuel config endpoint after values [] st
  end.

(** *** Owners *)

Definition GetOwners_values (config : GetOwnersConfig.t) (values : Values)
    : Values :=
  let values :=
    match GetOwnersConfig.Limit config with
    | Some limit => Values_Set "limit" (pretty limit) values
    | None => values
    end in
  match GetOwnersConfig.Email config with
  | Some email => Values_Set "email" email values
  | None => values
  end.

Fixpoint GetOwners_loop (fuel : nat) (config : option GetOwnersConfig.t)
    (endpoint : string) (after : string) (values : Values)
    (owners : list Owner.t) (st : State service)
    : Run service (option (list Owner.t) * option Error) :=
  match fuel with
  | 0 => OutOfFuel st
  | S fuel =>
      let values :=
        if decide (after ≠ "") then Values_Set "after" after values
        else values in
      let requestConfig :=
        {| Method := MethodGet;
           Url := urlCrm (WithQuery endpoint values);
           BodyModel := NoBody |} in
      let '(st, out) :=
        call KOwnersResponse requestConfig OwnersResponse.zero st in
      let ownersResponse : OwnersResponse.t := model out in
      match err out with
      | Some e => Returned (None, Some e) st
      | None =>
          let owners := owners ++ OwnersResponse.Results ownersResponse in
          let explicit :=
            match config with
            | Some config => bool_decide (GetOwnersConfig.After config ≠ None)
            | None => false
            end in
          if explicit then Returned (Some owners, None) st
          else
            match OwnersResponse.Paging ownersResponse with
            | None => Returned (Some owners, None) st
            | Some paging =>
                if decide (PagingNext.After (Next paging) = "")
                then Returned (Some owners, None) st
                else GetOwners_loop fuel config endpoint
                       (PagingNext.After (Next paging)) values owners st
            end
      end
  end.

Definition GetOwners (fuel : nat) (config : option GetOwnersConfig.t)
    (st : State service)
    : Run service (option (list Owner.t) * option Error) :=
  let values : Values := ∅ in
  let endpoint := "owners" in
  let after := "" in
  let '(values, after) :=
    match config with
    | Some config =>
        (GetOwners_values config values,
         match GetOwnersConfig.After config with
         | Some a => a
         | None => after
         end)
    | None => (values, after)
    end in
  GetOwners_loop fuel config endpoint after values [] st.

(** *** Engagements.go, continued *)

(** The [range] over [config.Properties] that fills the fresh map. *)
Definition copyProperties (source : gmap string string) : gmap string string :=
  map_fold (λ key value properties, <[key := value]> properties) ∅ source.

Definition UpdateEngagement (config : option UpdateEngagementConfig.t)
    (st : State service) : Run service (option Engagement.t * option Error) :=
  match config with
  | None => Panicked nilDereference st
  | Some config =>
      let endpoint := "objects/" +:+ UpdateEngagementConfig.Type_ config in
      let properties : gmap string string :=
        match UpdateEngagementConfig.Properties config with
        | Some supplied => copyProperties supplied
        | None => ∅
        end in
      let requestConfig :=
        {| Method := MethodPatch;
           Url := urlCrm (Plain (endpoint +:+ "/" +:+
                                 UpdateEngagementConfig.EngagementId config));
           BodyModel := PropertiesBody properties |} in
      let '(st, out) := call KEngagement requestConfig Engagement.zero st in
      match err out with
      | Some e => Returned (None, Some e) st
      | None => Returned (Some (model out), None) st
      end
  end.

Definition batchArchiveEngagements (engagementType : EngagementType)
    (engagementIds : list string) (st : State service)
    : State service * option Error :=
  let inputs := foldl (λ inputs engagementId, inputs ++ [engagementId]) []
                      engagementIds in
  let requestConfig :=
    {| Method := MethodPost;
       Url := urlCrm (Plain ("objects/" +:+ engagementType +:+ "/batch/archive"));
       BodyModel := InputsBody inputs |} in
  let '(st, out) := call KNone requestConfig tt st in
  (st, err out).

Definition maxItemsPerBatch : nat := 100.

(** [s[lo:hi]] and [s[lo:]] where the bounds are known to be in range. *)
Definition slice {A} (s : list A) (lo hi : nat) : list A :=
  take (hi - lo) (drop lo s).

(** The loop of [BatchArchiveEngagements]; a slice length fits an [int]
    with room to spare, so [index] is a natural number here. *)
Fixpoint BatchArchiveEngagements_loop (fuel : nat)
    (engagementType : EngagementType) (engagementIds : list string)
    (index : nat) (st : State service) : Run service (option Error) :=
  if decide (index < length engagementIds) then
    match fuel with
    | 0 => OutOfFuel st
    | S fuel =>
        let chunk :=
          if decide (index + maxItemsPerBatch < length engagementIds)
          then slice engagementIds index (index + maxItemsPerBatch)
          else drop index engagementIds in
        let '(st, e) := batchArchiveEngagements engagementType chunk st in
        match e with
        | Some e => Returned (Some e) st
        | None =>
            BatchArchiveEngagements_loop fuel engagementType engagementIds
              (index + maxItemsPerBatch) st
        end
    end
  else Returned None st.

Definition BatchArchiveEngagements (fuel : nat)
    (engagementType : EngagementType) (engagementIds : list string)
    (st : State service) : Run service (option Error) :=
  BatchArchiveEngagements_loop fuel engagementType engagementIds 0 st.

(** The loop of [SearchEngagements].  [config] is the record behind the
    caller's pointer: it is the body of every request and the loop writes
    its [After] field, so the run hands it back with the result. *)
Fixpoint SearchEngagements_loop (fuel : nat) (endpoint : string)
    (after : option string) (config : SearchObjectsConfig.t)
    (engagements : list Engagement.t) (st : State service)
    : Run service
        ((option (list Engagement.t) * option Error) * SearchObjectsConfig.t) :=
  match fuel with
  | 0 => OutOfFuel st
  | S fuel =>
      let requestConfig :=
        {| Method := MethodPost;
           Url := urlCrm (Plain endpoint);
           BodyModel := SearchBody config |} in
      let '(st, out) :=
        call KEngagementsResponse requestConfig EngagementsResponse.zero st in
      let engagementsResponse : EngagementsResponse.t := model out in
      match err out with
      | Some e => Returned ((None, Some e), config) st
      | None =>
          let engagements :=
            engagements ++ EngagementsResponse.Results engagementsResponse in
          if bool_decide (after ≠ None)
          then Returned ((Some engagements, None), config) st
          else
            match EngagementsResponse.Paging engagementsResponse with
            | None => Returned ((Some engagements, None), config) st
            | Some paging =>
                if decide (PagingNext.After (Next paging) = "")
                then Returned ((Some engagements, None), config) st
                else
                  let config :=
                    {| SearchObjectsConfig.After :=
                         Some (PagingNext.After (Next paging));
                       SearchObjectsConfig.Criteria :=
                         SearchObjectsConfig.Criteria config |} in
                  SearchEngagements_loop fuel endpoint after config
                    engagements st
            end
      end
  end.

Definition SearchEngagements (fuel : nat) (objectType : ObjectType)
    (config : option SearchObjectsConfig.t) (st : State service)
    : Run service
        ((option (list Engagement.t) * option Error) *
         option SearchObjectsConfig.t) :=
  match config with
  | None => Returned ((None, Some (ErrorMessage "Config is nil")), None) st
  | Some config =>
      let endpoint := "objects/" +:+ objectType +:+ "/search" in
      let requestConfig :=
        {| Method := MethodPost;
           Url := urlCrm (Plain endpoint);
           BodyModel := SearchBody config |} in
      let '(st, out) :=
        call KEngagementsResponse requestConfig EngagementsResponse.zero st in
      match err out with
      | Some e => Returned ((None, Some e), Some config) st
      | None =>
          let after := SearchObjectsConfig.After config in
          match SearchEngagements_loop fuel endpoint after config [] st with
          | Returned (result, config) st => Returned (result, Some config) st
          | Panicked reason st => Panicked reason st
          | OutOfFuel st => OutOfFuel st
          end
      end
  end.

(** [s[lo:hi]] with the run-time check; the capacity of the slice is taken
    to be its length. *)
Definition checkedSlice {A} (s : list A) (lo hi : nat) : option (list A) :=
  if decide (lo ≤ hi ∧ hi ≤ length s) then Some (slice s lo hi) else None.

Definition isMultiStatus (response : option Response) : bool :=
  match response with
  | Some response => bool_decide (StatusCode response = StatusMultiStatus)
  | None => false
  end.

(** The [range] over [service.batches(len(config.Inputs))] shared by
    [BatchCreateEngagements] and [BatchUpdateEngagements], whose bodies
    differ in the last segment of the URL only ([action]). *)
Fixpoint batchEngagements_loop (action : string)
    (config : BatchObjectsConfig.t) (todo : list Batch)
    (engagements : list Engagement.t) (st : State service)
    : Run service (option (list Engagement.t) * option Error) :=
  match todo with
  | [] => Returned (Some engagements, None) st
  | batch :: todo =>
      match checkedSlice (BatchObjectsConfig.Inputs config)
              (startIndex batch) (endIndex batch) with
      | None => Panicked sliceOutOfRange st
      | Some inputs =>
          let requestConfig :=
            {| Method := MethodPost;
               Url := urlCrm (Plain ("objects/" +:+
                        BatchObjectsConfig.ObjectType_ config +:+
                        "/batch/" +:+ action));
               BodyModel := BatchObjectsBody inputs |} in
          let '(st, out) :=
            call KBatchEngagementsResponse requestConfig
              BatchEngagementsResponse.zero st in
          let r : BatchEngagementsResponse.t := model out in
          let ok (st : State service) :=
            let engagements :=
              engagements ++ BatchEngagementsResponse.Results r in
            let st := Println (PrintBatch (startIndex batch)) st in
            batchEngagements_loop action config todo engagements st in
          if isMultiStatus (response out)
          then ok (Println (PrintErrors (BatchEngagementsResponse.Errors r)) st)
          else
            match err out with
            | Some e => Returned (None, Some e) st
            | None => ok st
            end
      end
  end.

Definition batchEngagements (action : string)
    (config : option BatchObjectsConfig.t) (st : State service)
    : Run service (option (list Engagement.t) * option Error) :=
  match config with
  | None => Panicked nilDereference st
  | Some config =>
      batchEngagements_loop action config
        (batches service (length (BatchObjectsConfig.Inputs config))) [] st
  end.

Definition BatchCreateEngagements := batchEngagements "create".
Definition BatchUpdateEngagements := batchEngagements "update".

(** *** Associations *)

Definition maxBatchSize : nat := 10000.

(** The inner [range] over [ids] that stops at [i == maxBatchSize]. *)
Fixpoint collectInputs (i : nat) (ids : list string) (inputs : list string)
    : list string :=
  match ids with
  | [] => inputs
  | id :: ids =>
      if decide (i = maxBatchSize) then inputs
      else collectInputs (S i) ids (inputs ++ [id])
  end.

Fixpoint BatchGetAssociations_loop (fuel : nat) (endpoint : string)
    (ids : list string) (associationsV4Set : AssociationsV4Set.t)
    (st : State service)
    : Run service (option AssociationsV4Set.t * option Error) :=
  if decide (0 < length ids) then
    match fuel with
    | 0 => OutOfFuel st
    | S fuel =>
        let requestConfig :=
          {| Method := MethodPost;
             Url := urlV4 (Plain endpoint);
             BodyModel := InputsBody (collectInputs 0 ids []) |} in
        let '(st, out) :=
          call KAssociationsV4Set requestConfig AssociationsV4Set.zero st in
        let associationsV4Set_ : AssociationsV4Set.t := model out in
        match err out with
        | Some e => Returned (None, Some e) st
        | None =>
            let associationsV4Set :=
              {| AssociationsV4Set.Results :=
                   AssociationsV4Set.Results associationsV4Set ++
                   AssociationsV4Set.Results associationsV4Set_ |} in
            if decide (maxBatchSize < length ids)
            then BatchGetAssociations_loop fuel endpoint
                   (drop maxBatchSize ids) associationsV4Set st
            else Returned (Some associationsV4Set, None) st
        end
    end
  else Returned (Some associationsV4Set, None) st.

Definition BatchGetAssociations (fuel : nat)
    (config : option BatchGetAssociationsConfig.t) (st : State service)
    : Run service (option AssociationsV4Set.t * option Error) :=
  match config with
  | None => Panicked nilDereference st
  | Some config =>
      if decide (length (BatchGetAssociationsConfig.Ids config) = 0)
      then Returned (None, None) st
      else
        let endpoint :=
          "associations/" +:+ BatchGetAssociationsConfig.FromObjectType config
          +:+ "/" +:+ BatchGetAssociationsConfig.ToObjectType config
          +:+ "/batch/read" in
        BatchGetAssociations_loop fuel endpoint
          (BatchGetAssociationsConfig.Ids config) AssociationsV4Set.zero st
  end.
End Calls.

(** ** Observations on a run *)

Definition stateOf {service A} (run : Run service A) : State service :=
  match run with
  | Returned _ st => st
  | Panicked _ st => st
  | OutOfFuel st => st
  end.

(** The exchanges made, and the lines printed, between two states. *)
Definition exchangesSince {service} (st st' : State service) : list Exchange :=
  drop (length (log st)) (log st').

Definition printedSince {service} (st st' : State service) : list Printed :=
  drop (length (stdout st)) (stdout st').

Definition failed (x : Exchange) : option Error := err (outcome x).

Definition multiStatus (x : Exchange) : bool :=
  isMultiStatus (response (outcome x)).

(** The paging object of a list response. *)
Definition pagingOf (x : Exchange) : option Paging :=
  match x with
  | Build_Exchange _ KEngagementsResponse out =>
      EngagementsResponse.Paging (model out)
  | Build_Exchange _ KOwnersResponse out => OwnersResponse.Paging (model out)
  | _ => None
  end.

(** The cursor a list response carries; empty when it has no paging. *)
Definition nextCursor (x : Exchange) : string :=
  match pagingOf x with
  | Some paging => PagingNext.After (Next paging)
  | None => ""
  end.

Definition engagementsOf (x : Exchange) : list Engagement.t :=
  match x with
  | Build_Exchange _ KEngagementsResponse out =>
      EngagementsResponse.Results (model out)
  | Build_Exchange _ KBatchEngagementsResponse out =>
      BatchEngagementsResponse.Results (model out)
  | _ => []
  end.

Definition ownersOf (x : Exchange) : list Owner.t :=
  match x with
  | Build_Exchange _ KOwnersResponse out => OwnersResponse.Results (model out)
  | _ => []
  end.

Definition associationsOf (x : Exchange) : list AssociationV4 :=
  match x with
  | Build_Exchange _ KAssociationsV4Set out =>
      AssociationsV4Set.Results (model out)
  | _ => []
  end.

Definition batchErrorsOf (x : Exchange) : list BatchError :=
  match x with
  | Build_Exchange _ KBatchEngagementsResponse out =>
      BatchEngagementsResponse.Errors (model out)
  | _ => []
  end.

(** The values of a query parameter of a request. *)
Definition queryOf (key : string) (requestConfig : RequestConfig)
    : option (list string) :=
  match Url requestConfig with
  | urlCrm (WithQuery _ values) | urlV4 (WithQuery _ values) => values !! key
  | _ => None
  end.

(** The identifiers in the body of a batch request. *)
Definition inputsOf (requestConfig : RequestConfig) : list string :=
  match BodyModel requestConfig with
  | InputsBody inputs => inputs
  | _ => []
  end.

(** ** The pagination protocol *)

(** How a sequence of list requests ended: on a page without a next cursor,
    on a transport error, or not yet. *)
Inductive Ending :=
| Stopped
| Failed (e : Error)
| Unfinished.

(** The protocol of the pagination driver, read off the exchanges:
    [requestFor cursor] is the request made for a cursor; the first request
    is made for [cursor], every further one for the next cursor of the
    response before it; the sequence ends on the first response that fails
    or that carries no next cursor (no paging object, or an empty one). *)
Inductive CursorChain (requestFor : string → RequestConfig)
    : string → list Exchange → Ending → Prop :=
| chain_unfinished cursor :
    CursorChain requestFor cursor [] Unfinished
| chain_failed cursor x e :
    request x = requestFor cursor →
    failed x = Some e →
    CursorChain requestFor cursor [x] (Failed e)
| chain_stopped cursor x :
    request x = requestFor cursor →
    failed x = None →
    nextCursor x = "" →
    CursorChain requestFor cursor [x] Stopped
| chain_next cursor x xs ending :
    request x = requestFor cursor →
    failed x = None →
    nextCursor x ≠ "" →
    CursorChain requestFor (nextCursor x) xs ending →
    CursorChain requestFor cursor (x :: xs) ending.

(** The query of a list request: the parameters of the configuration, with
    [after] set when the cursor is not empty. *)
Definition withAfter (cursor : string) (values : Values) : Values :=
  if decide (cursor ≠ "") then Values_Set "after" cursor values else values.

Definition listRequest (endpoint : string) (values : Values) (cursor : string)
    : RequestConfig :=
  {| Method := MethodGet;
     Url := urlCrm (WithQuery endpoint (withAfter cursor values));
     BodyModel := NoBody |}.

(** The loop variable [values] against the parameters of the
    configuration: it differs from them in the [after] key at most, and not
    at all before the first cursor was set. *)
Definition valuesAgree (values0 : Values) (after : string) (values : Values)
    : Prop :=
  (∀ a, Values_Set "after" a values = Values_Set "after" a values0) ∧
  (after = "" → values = values0).

Definition ListEngagements_request (config : ListEngagementsConfig.t)
    : string → RequestConfig :=
  listRequest ("objects/" +:+ ListEngagementsConfig.Type_ config)
    (ListEngagements_values config ∅).

Definition GetOwners_request (config : option GetOwnersConfig.t)
    : string → RequestConfig :=
  listRequest "owners"
    (match config with
     | Some config => GetOwners_values config ∅
     | None => ∅
     end).

(** The search configuration once the loop has stored [cursor] in it; the
    empty cursor stands for the configuration as the caller passed it. *)
Definition storeCursor (cursor : string) (config : SearchObjectsConfig.t)
    : SearchObjectsConfig.t :=
  if decide (cursor = "") then config
  else {| SearchObjectsConfig.After := Some cursor;
          SearchObjectsConfig.Criteria := SearchObjectsConfig.Criteria config |}.

(** The request [SearchEngagements] makes with the configuration as it
    stands. *)
Definition searchRequest (objectType : ObjectType)
    (config : SearchObjectsConfig.t) : RequestConfig :=
  {| Method := MethodPost;
     Url := urlCrm (Plain ("objects/" +:+ objectType +:+ "/search"));
     BodyModel := SearchBody config |}.

Definition SearchEngagements_request (objectType : ObjectType)
    (config : SearchObjectsConfig.t) (cursor : string) : RequestConfig :=
  searchRequest objectType (storeCursor cursor config).

(** The cursor for which the last request of a chain was made. *)
Fixpoint lastFollowed (cursor : string) (xs : list Exchange) : string :=
  match xs with
  | [] => cursor
  | x :: xs =>
      match xs with
      | [] => cursor
      | _ :: _ => lastFollowed (nextCursor x) xs
      end
  end.

(** What a list operation returns for an ending, given the records of the
    pages: all of them, the error alone, or nothing yet. *)
Definition listOutcome {service A} (records : list A) (ending : Ending)
    (st : State service) : Run service (option (list A) * option Error) :=
  match ending with
  | Stopped => Returned (Some records, None) st
  | Failed e => Returned (None, Some e) st
  | Unfinished => OutOfFuel st
  end.

(** ** The batch protocol *)

(** The contiguous chunks of at most [size] items of a sequence, in the
    order of the sequence. *)
Fixpoint chunksFrom {A} (fuel size : nat) (items : list A) : list (list A) :=
  match fuel with
  | 0 => []
  | S fuel =>
      match items with
      | [] => []
      | _ :: _ => take size items :: chunksFrom fuel size (drop size items)
      end
  end.

Definition chunks {A} (size : nat) (items : list A) : list (list A) :=
  chunksFrom (length items) size items.

(** The sizes of the chunks of a sequence of [n] items. *)
Fixpoint chunkSizes (fuel size n : nat) : list nat :=
  match fuel with
  | 0 => []
  | S fuel =>
      match n with
      | 0 => []
      | S _ => (size `min` n) :: chunkSizes fuel size (n - size)
      end
  end.

(** The error on which a batch operation gives up after an exchange: the
    error of the transport, unless the operation tolerates partial failure
    and the response is a 207. *)
Definition aborts (tolerant : bool) (x : Exchange) : option Error :=
  if tolerant && multiStatus x then None else failed x.

(** The protocol of the batch driver, read off the exchanges: the planned
    requests are made in order, one exchange each, up to the first exchange
    on which the operation gives up. *)
Inductive BatchRun (tolerant : bool)
    : list RequestConfig → list Exchange → Ending → Prop :=
| batch_stopped :
    BatchRun tolerant [] [] Stopped
| batch_unfinished planned rest :
    BatchRun tolerant (planned :: rest) [] Unfinished
| batch_failed planned rest x e :
    request x = planned →
    aborts tolerant x = Some e →
    BatchRun tolerant (planned :: rest) [x] (Failed e)
| batch_next planned rest x xs ending :
    request x = planned →
    aborts tolerant x = None →
    BatchRun tolerant rest xs ending →
    BatchRun tolerant (planned :: rest) (x :: xs) ending.

Definition archiveRequest (engagementType : EngagementType)
    (engagementIds : list string) : RequestConfig :=
  {| Method := MethodPost;
     Url := urlCrm (Plain ("objects/" +:+ engagementType +:+ "/batch/archive"));
     BodyModel := InputsBody engagementIds |}.

(** The request of [BatchGetAssociations] for a chunk of identifiers. *)
Definition readRequest (endpoint : string) (ids : list string)
    : RequestConfig :=
  {| Method := MethodPost;
     Url := urlV4 (Plain endpoint);
     BodyModel := InputsBody ids |}.

Definition associationsRequest (config : BatchGetAssociationsConfig.t)
    : list string → RequestConfig :=
  readRequest
    ("associations/" +:+ BatchGetAssociationsConfig.FromObjectType config
     +:+ "/" +:+ BatchGetAssociationsConfig.ToObjectType config
     +:+ "/batch/read").

Definition batchRequest (action : string) (config : BatchObjectsConfig.t)
    (batch : Batch) : RequestConfig :=
  {| Method := MethodPost;
     Url := urlCrm (Plain ("objects/" +:+ BatchObjectsConfig.ObjectType_ config
                           +:+ "/batch/" +:+ action));
     BodyModel := BatchObjectsBody
                    (slice (BatchObjectsConfig.Inputs config)
                       (startIndex batch) (endIndex batch)) |}.

(** A batch whose bounds can be used to slice [n] inputs. *)
Definition validBatch (n : nat) (batch : Batch) : Prop :=
  startIndex batch ≤ endIndex batch ∧ endIndex batch ≤ n.

(** What a batch create or update prints for a chunk and its exchange. *)
Definition printedFor (batch : Batch) (x : Exchange) : list Printed :=
  if multiStatus x
  then [PrintErrors (batchErrorsOf x); PrintBatch (startIndex batch)]
  else match failed x with
       | Some _ => []
       | None => [PrintBatch (startIndex batch)]
       end.

(** ** The body on the wire *)

(** JSON values as far as the bodies built here need them; the members of
    an object are a finite map, as the order of the keys carries no
    meaning. *)
Inductive JSON :=
| JNull
| JString (s : string)
| JArray (items : list JSON)
| JObject (members : gmap string JSON).

(** [encoding/json] on the two anonymous structs of the package: the struct
    tag names the single member; a non-nil [map[string]string] becomes an
    object with one string member per key, a slice of [{Id}] an array of
    objects. *)
Definition marshal (body : Body) : option JSON :=
  match body with
  | PropertiesBody properties =>
      Some (JObject {[ "properties" := JObject (JString <$> properties) ]})
  | InputsBody inputs =>
      Some (JObject {[ "inputs" :=
              JArray ((λ id, JObject {[ "id" := JString id ]}) <$> inputs) ]})
  | _ => None
  end.

(** The value sent for [key] inside the member [name] of a body. *)
Definition sentProperty (body : Body) (name key : string) : option JSON :=
  match marshal body with
  | Some (JObject members) =>
      match members !! name with
      | Some (JObject properties) => properties !! key
      | _ => None
      end
  | _ => None
  end.

(** ** Further observations *)

(** The inputs in the body of a batch create or update request. *)
Definition batchInputsOf (requestConfig : RequestConfig)
    : list BatchObjectInput :=
  match BodyModel requestConfig with
  | BatchObjectsBody inputs => inputs
  | _ => []
  end.

(** Batches that cut [start, n) without gap or overlap, in order. *)
Fixpoint contiguousFrom (start : nat) (todo : list Batch) (n : nat) : Prop :=
  match todo with
  | [] => start = n
  | batch :: todo =>
      startIndex batch = start ∧ start ≤ endIndex batch ∧ endIndex batch ≤ n ∧
      contiguousFrom (endIndex batch) todo n
  end.

(** The progress lines among what was printed: the start index of each
    ["batch"] line. *)
Definition progressOf (printed : list Printed) : list nat :=
  omap (λ p, match p with PrintBatch start => Some start | _ => None end)
       printed.

(** The keys that [ListEngagements] and [GetOwners] derive from their
    configuration. *)
Definition ListEngagements_keys : list string :=
  ["limit"; "properties"; "associations"; "archived"].

Definition GetOwners_keys : list string := ["limit"; "email"].

(** ** A scripted remote side

    The worked examples run the package against a remote side that answers
    the requests it receives with a fixed list of replies, one after the
    other, and refuses the connection once the list is used up. *)
Module Scripted.
Record Reply := {
  status : Z;
  failure : option Error;
  engagements : list Engagement.t;
  owners : list Owner.t;
  associations : list AssociationV4;
  errors : list BatchError;
  cursor : option string
}.

Definition paging (r : Reply) : option Paging :=
  (λ c, {| Next := {| PagingNext.After := c |} |}) <$> cursor r.

(** The response model after the body of [r] was decoded into it. *)
Definition decode (k : ModelKind) (r : Reply) : ModelOf k → ModelOf k :=
  match k with
  | KNone => λ m, m
  | KEngagement => λ m, default m (head (engagements r))
  | KEngagementsResponse => λ _,
      {| EngagementsResponse.Results := engagements r;
         EngagementsResponse.Paging := paging r |}
  | KOwnersResponse => λ _,
      {| OwnersResponse.Results := owners r;
         OwnersResponse.Paging := paging r |}
  | KAssociationsV4Set => λ _,
      {| AssociationsV4Set.Results := associations r |}
  | KBatchEngagementsResponse => λ m,
      {| BatchEngagementsResponse.CompletedAt :=
           BatchEngagementsResponse.CompletedAt m;
         BatchEngagementsResponse.NumErrors := Z.of_nat (length (errors r));
         BatchEngagementsResponse.RequestedAt :=
           BatchEngagementsResponse.RequestedAt m;
         BatchEngagementsResponse.StartedAt :=
           BatchEngagementsResponse.StartedAt m;
         BatchEngagementsResponse.Links := BatchEngagementsResponse.Links m;
         BatchEngagementsResponse.Results := engagements r;
         BatchEngagementsResponse.Errors := errors r;
         BatchEngagementsResponse.Status := BatchEngagementsResponse.Status m |}
  end.

Definition answer (k : ModelKind) (script : list Reply)
    (requestConfig : RequestConfig) (m : ModelOf k)
    : list Reply * Outcome k :=
  match script with
  | [] =>
      ([], {| response := None; model := m;
              err := Some (ErrorMessage "connection refused") |})
  | r :: script =>
      (script, {| response := Some {| StatusCode := status r |};
                  model := decode k r m;
                  err := failure r |})
  end.

(** Modelled from the spec: [service.batches] is defined in a file of the
    package that is not embedded here.  It cuts [0, n) into contiguous
    batches of at most [size] items, in order. *)
Fixpoint batchesFrom (fuel size start n : nat) : list Batch :=
  match fuel with
  | 0 => []
  | S fuel =>
      if decide (start < n)
      then {| startIndex := start; endIndex := (start + size) `min` n |}
           :: batchesFrom fuel size (start + size) n
      else []
  end.

Definition service (size : nat) : Service :=
  {| World := list Reply;
     httpRequest := answer;
     batches := λ n, batchesFrom n size 0 n |}.

Definition start (size : nat) (script : list Reply) : State (service size) :=
  Build_State (service size) script [] [].

Definition engagement (id : string) : Engagement.t :=
  {| Engagement.Id := id; Engagement.Properties := ∅;
     Engagement.CreatedAt := ""; Engagement.UpdatedAt := "";
     Engagement.Archived := false; Engagement.Associations := ∅ |}.

Definition owner (id : string) : Owner.t :=
  {| Owner.FirstName := ""; Owner.LastName := ""; Owner.CreatedAt := "";
     Owner.Archived := false; Owner.Teams := []; Owner.Id := id;
     Owner.Email := ""; Owner.UpdatedAt := "" |}.

Definition association (id : string) : AssociationV4 :=
  {| From_Id := id; To := [] |}.

(** A successful page of engagements and owners, with its next cursor. *)
Definition page (ids : list string) (next : option string) : Reply :=
  {| status := 200; failure := None; engagements := engagement <$> ids;
     owners := owner <$> ids; associations := association <$> ids;
     errors := []; cursor := next |}.

Definition broken (code : Z) (message : string) : Reply :=
  {| status := code; failure := Some (ErrorMessage message);
     engagements := []; owners := []; associations := [];
     errors := []; cursor := None |}.

Definition batchError (id message : string) : BatchError :=
  {| BatchError_SubCategory := ""; BatchError_Context := ∅;
     BatchError_Links := ∅; BatchError_Id := id;
     BatchError_Category := "VALIDATION_ERROR";
     BatchError_Message := message; BatchError_Errors := [];
     BatchError_Status := "error" |}.

(** A 207 reply: some items created, some refused, and the transport
    reports an error along with it. *)
Definition partial (ids : list string) (refused : list string) : Reply :=
  {| status := 207; failure := Some (ErrorMessage "multi-status");
     engagements := engagement <$> ids; owners := [];
     associations := [];
     errors := (λ id, batchError id "refused") <$> refused;
     cursor := None |}.

(** Configurations and scripts of the worked examples. *)
Definition listConfig (after : option string) : ListEngagementsConfig.t :=
  {| ListEngagementsConfig.Type_ := EngagementTypeCall;
     ListEngagementsConfig.Limit := Some 2%N;
     ListEngagementsConfig.After := after;
     ListEngagementsConfig.Properties := Some ["hs_call_title"];
     ListEngagementsConfig.Associations := None;
     ListEngagementsConfig.Archived := Some false |}.

Definition ownersConfig (after : option string) : GetOwnersConfig.t :=
  {| GetOwnersConfig.Limit := Some 2%N;
     GetOwnersConfig.After := after;
     GetOwnersConfig.Email := None |}.

Definition searchConfig (after : option string) : SearchObjectsConfig.t :=
  {| SearchObjectsConfig.After := after;
     SearchObjectsConfig.Criteria := [("hs_call_status", "COMPLETED")] |}.

Definition batchConfig (ids : list string) : BatchObjectsConfig.t :=
  {| BatchObjectsConfig.ObjectType_ := "calls";
     BatchObjectsConfig.Inputs :=
       (λ id, {| Input_Id := id; Input_Properties := ∅ |}) <$> ids |}.

Definition associationsConfig (ids : list string)
    : BatchGetAssociationsConfig.t :=
  {| BatchGetAssociationsConfig.FromObjectType := "contacts";
     BatchGetAssociationsConfig.ToObjectType := "calls";
     BatchGetAssociationsConfig.Ids := ids |}.

(** Three pages, the last one without a next cursor. *)
Definition threePages : list Reply :=
  [page ["1"; "2"] (Some "c1"); page ["3"] (Some "c2"); page ["4"] None].

(** A first page, then a gateway error. *)
Definition secondFails : list Reply :=
  [page ["1"; "2"] (Some "c1"); broken 502 "bad gateway"; page ["4"] None].

(** A search: the reply to the request made before the loop, then two
    pages. *)
Definition searchPages : list Reply :=
  [page ["1"; "2"] (Some "c1"); page ["1"; "2"] (Some "c1"); page ["3"] None].

(** Three chunks: the second is refused. *)
Definition secondChunkFails : list Reply :=
  [page ["1"; "2"] None; broken 500 "internal error"; page ["5"] None].

(** Three chunks: the second is answered with a 207, and the transport
    reports an error with it. *)
Definition secondPartial : list Reply :=
  [page ["1"; "2"] None; partial ["3"] ["4"]; page ["5"] None].
End Scripted.

(** * Properties *)

Section Basics.
Context {service : Service}.
Implicit Types st : State service.

Lemma exchangesSince_app st st' xs :
  log st' = log st ++ xs → exchangesSince st st' = xs.
Proof. intros E. unfold exchangesSince. rewrite E. apply drop_app_length. Qed.

Lemma exchangesSince_refl st : exchangesSince st st = [].
Proof. apply exchangesSince_app. by rewrite app_nil_r. Qed.

Lemma printedSince_app st st' ps :
  stdout st' = stdout st ++ ps → printedSince st st' = ps.
Proof. intros E. unfold printedSince. rewrite E. apply drop_app_length. Qed.

(** A call adds one exchange to the log and prints nothing. *)
Lemma call_log k requestConfig (m : ModelOf k) st :
  log (call service k requestConfig m st).1 =
  log st ++ [{| request := requestConfig;
                outcome := (call service k requestConfig m st).2 |}].
Proof. unfold call. by destruct (httpRequest _ _ _ _ _). Qed.

Lemma call_stdout k requestConfig (m : ModelOf k) st :
  stdout (call service k requestConfig m st).1 = stdout st.
Proof. unfold call. by destruct (httpRequest _ _ _ _ _). Qed.

Lemma copyProperties_id (source : gmap string string) :
  copyProperties source = source.
Proof.
  unfold copyProperties.
  apply (map_fold_weak_ind (λ copied seen, copied = seen)); [done|].
  by intros key value seen copied _ ->.
Qed.
End Basics.

(** The ways a list loop leaves: out of iterations before a request, on a
    failed exchange, on a page without next cursor. *)
Ltac chain_idle :=
  exists [], Unfinished; cbn; split_and!; try done;
  [constructor | by rewrite app_nil_r].

Ltac chain_fails x e :=
  exists [x], (Failed e); cbn; split_and!; try done; by constructor.

Ltac chain_stops x Hpaging :=
  exists [x], Stopped; cbn; rewrite app_nil_r; split_and!; try done;
  constructor; try done; unfold nextCursor; cbn; by rewrite Hpaging.

Section Pagination.
Context {service : Service}.
Implicit Types st : State service.

Lemma valuesAgree_request values0 after values :
  valuesAgree values0 after values →
  (if decide (after ≠ "") then Values_Set "after" after values else values)
  = withAfter after values0.
Proof.
  intros [Hset Hempty]. unfold withAfter.
  destruct (decide (after ≠ "")) as [|Hafter]; [apply Hset|].
  apply Hempty. by apply dec_stable.
Qed.

Lemma valuesAgree_next values0 after values next :
  valuesAgree values0 after values → next ≠ "" →
  valuesAgree values0 next
    (if decide (after ≠ "") then Values_Set "after" after values else values).
Proof.
  intros [Hset Hempty] Hnext. split; [|done].
  intros a. destruct (decide (after ≠ "")); [|apply Hset].
  unfold Values_Set. rewrite insert_insert_eq. apply Hset.
Qed.

Lemma ListEngagements_loop_chain fuel config endpoint values0 :
  config ≫= ListEngagementsConfig.After = None →
  ∀ after values engagements st,
    valuesAgree values0 after values →
    ∃ xs ending,
      let run := ListEngagements_loop service fuel config endpoint after
                   values engagements st in
      CursorChain (listRequest endpoint values0) after xs ending ∧
      log (stateOf run) = log st ++ xs ∧
      run = listOutcome (engagements ++ concat (engagementsOf <$> xs))
              ending (stateOf run) ∧
      (ending = Unfinished → length xs = fuel).
Proof.
  intros Hconfig.
  induction fuel as [|fuel IH]; intros after values engagements st Hvalues.
  { chain_idle. }
  cbn [ListEngagements_loop]. rewrite (valuesAgree_request values0) by done.
  fold (listRequest endpoint values0 after).
  pose proof (call_log KEngagementsResponse (listRequest endpoint values0 after)
                EngagementsResponse.zero st) as Hlog.
  destruct (call _ _ _ _ _) as [st1 out]. cbn [fst snd] in Hlog.
  set (x := Build_Exchange _ _ out) in Hlog.
  destruct (err out) as [e|] eqn:Herr.
  { chain_fails x e. }
  replace (match config with Some c => _ | None => false end) with false; last first.
  { destruct config as [c|]; [|done]. cbn in Hconfig. rewrite Hconfig.
    symmetry. apply bool_decide_eq_false. by intros []. }
  destruct (EngagementsResponse.Paging (model out)) as [paging|] eqn:Hpaging.
  2: { chain_stops x Hpaging. }
  destruct (decide (PagingNext.After (Next paging) = "")) as [Hstop|Hnext].
  { chain_stops x Hpaging. }
  destruct (IH (PagingNext.After (Next paging))
               (if decide (after ≠ "") then Values_Set "after" after values
                else values)
               (engagements ++ EngagementsResponse.Results (model out)) st1)
    as (xs & ending & Hchain & Hlog' & Hrun & Hlen).
  { by apply valuesAgree_next. }
  rewrite (valuesAgree_request values0) in * by done.
  exists (x :: xs), ending. cbn zeta in *. split_and!.
  - apply chain_next; try done.
    + unfold nextCursor. cbn. by rewrite Hpaging.
    + unfold nextCursor. cbn. by rewrite Hpaging.
  - rewrite Hlog', Hlog. by rewrite <-app_assoc.
  - rewrite Hrun at 1. cbn. by rewrite <-app_assoc.
  - intros ->. cbn. by rewrite Hlen.
Qed.
End Pagination.

Section PaginationOwners.
Context {service : Service}.
Implicit Types st : State service.

Lemma GetOwners_loop_chain fuel config endpoint values0 :
  config ≫= GetOwnersConfig.After = None →
  ∀ after values owners st,
    valuesAgree values0 after values →
    ∃ xs ending,
      let run := GetOwners_loop service fuel config endpoint after
                   values owners st in
      CursorChain (listRequest endpoint values0) after xs ending ∧
      log (stateOf run) = log st ++ xs ∧
      run = listOutcome (owners ++ concat (ownersOf <$> xs))
              ending (stateOf run) ∧
      (ending = Unfinished → length xs = fuel).
Proof.
  intros Hconfig.
  induction fuel as [|fuel IH]; intros after values owners st Hvalues.
  { chain_idle. }
  cbn [GetOwners_loop]. rewrite (valuesAgree_request values0) by done.
  fold (listRequest endpoint values0 after).
  pose proof (call_log KOwnersResponse (listRequest endpoint values0 after)
                OwnersResponse.zero st) as Hlog.
  destruct (call _ _ _ _ _) as [st1 out]. cbn [fst snd] in Hlog.
  set (x := Build_Exchange _ _ out) in Hlog.
  destruct (err out) as [e|] eqn:Herr.
  { chain_fails x e. }
  replace (match config with Some c => _ | None => false end) with false; last first.
  { destruct config as [c|]; [|done]. cbn in Hconfig. rewrite Hconfig.
    symmetry. apply bool_decide_eq_false. by intros []. }
  destruct (OwnersResponse.Paging (model out)) as [paging|] eqn:Hpaging.
  2: { chain_stops x Hpaging. }
  destruct (decide (PagingNext.After (Next paging) = "")) as [Hstop|Hnext].
  { chain_stops x Hpaging. }
  destruct (IH (PagingNext.After (Next paging))
               (if decide (after ≠ "") then Values_Set "after" after values
                else values)
               (owners ++ OwnersResponse.Results (model out)) st1)
    as (xs & ending & Hchain & Hlog' & Hrun & Hlen).
  { by apply valuesAgree_next. }
  rewrite (valuesAgree_request values0) in * by done.
  exists (x :: xs), ending. cbn zeta in *. split_and!.
  - apply chain_next; try done.
    + unfold nextCursor. cbn. by rewrite Hpaging.
    + unfold nextCursor. cbn. by rewrite Hpaging.
  - rewrite Hlog', Hlog. by rewrite <-app_assoc.
  - rewrite Hrun at 1. cbn. by rewrite <-app_assoc.
  - intros ->. cbn. by rewrite Hlen.
Qed.

(** With an explicit cursor the loops leave after their first request. *)
Lemma ListEngagements_loop_explicit fuel config cursor endpoint after values
    engagements st :
  ListEngagementsConfig.After config = Some cursor →
  ∃ x,
    let run := ListEngagements_loop service (S fuel) (Some config) endpoint
                 after values engagements st in
    log (stateOf run) = log st ++ [x] ∧
    request x = listRequest endpoint values after ∧
    run = match failed x with
          | Some e => Returned (None, Some e) (stateOf run)
          | None => Returned (Some (engagements ++ engagementsOf x), None)
                      (stateOf run)
          end.
Proof.
  intros Hcursor. cbn [ListEngagements_loop].
  fold (withAfter after values). fold (listRequest endpoint values after).
  pose proof (call_log KEngagementsResponse (listRequest endpoint values after)
                EngagementsResponse.zero st) as Hlog.
  destruct (call _ _ _ _ _) as [st1 out]. cbn [fst snd] in Hlog.
  exists (Build_Exchange (listRequest endpoint values after) _ out).
  rewrite Hcursor, bool_decide_eq_true_2 by done.
  unfold failed. cbn. by destruct (err out).
Qed.

Lemma GetOwners_loop_explicit fuel config cursor endpoint after values
    owners st :
  GetOwnersConfig.After config = Some cursor →
  ∃ x,
    let run := GetOwners_loop service (S fuel) (Some config) endpoint
                 after values owners st in
    log (stateOf run) = log st ++ [x] ∧
    request x = listRequest endpoint values after ∧
    run = match failed x with
          | Some e => Returned (None, Some e) (stateOf run)
          | None => Returned (Some (owners ++ ownersOf x), None) (stateOf run)
          end.
Proof.
  intros Hcursor. cbn [GetOwners_loop].
  fold (withAfter after values). fold (listRequest endpoint values after).
  pose proof (call_log KOwnersResponse (listRequest endpoint values after)
                OwnersResponse.zero st) as Hlog.
  destruct (call _ _ _ _ _) as [st1 out]. cbn [fst snd] in Hlog.
  exists (Build_Exchange (listRequest endpoint values after) _ out).
  rewrite Hcursor, bool_decide_eq_true_2 by done.
  unfold failed. cbn. by destruct (err out).
Qed.
End PaginationOwners.

Section Chains.
Context (requestFor : string → RequestConfig).

(** Where a chain stops: a response without next cursor is the last one,
    a response followed by another carried a next cursor, and every
    request but the first is made for the cursor of the response before. *)
Lemma CursorChain_positions cursor xs ending :
  CursorChain requestFor cursor xs ending →
  ∀ i x, xs !! i = Some x →
    (S i < length xs → failed x = None ∧ nextCursor x ≠ "") ∧
    (failed x = None → nextCursor x = "" →
       S i = length xs ∧ ending = Stopped) ∧
    (∀ e, failed x = Some e → S i = length xs ∧ ending = Failed e) ∧
    (S i = length xs → ending = Stopped →
       failed x = None ∧ nextCursor x = "") ∧
    (∀ y, xs !! S i = Some y → request y = requestFor (nextCursor x)).
Proof.
  induction 1 as [cursor|cursor x0 e Hreq Hfail|cursor x0 Hreq Hok Hstop
                 |cursor x0 xs ending Hreq Hok Hnext Hchain IH];
    intros i x Hx.
  - done.
  - apply list_lookup_singleton_Some in Hx as [-> ->]. cbn.
    split_and!; try done; try lia.
    + congruence.
    + intros e' He'. split; [done|]. congruence.
  - apply list_lookup_singleton_Some in Hx as [-> ->]. cbn.
    split_and!; try done; try lia. congruence.
  - destruct i as [|i]; cbn in Hx.
    + injection Hx as Hx. subst x. cbn. split_and!; try done.
      * congruence.
      * intros Hlen. destruct xs; [|cbn in Hlen; lia].
        by inversion Hchain.
      * intros y Hy. inversion Hchain; subst; cbn in Hy; by simplify_eq.
    + destruct (IH i x Hx) as (H1 & H2 & H3 & H4 & H5). cbn.
      split_and!.
      * intros ?. apply H1. lia.
      * intros ? ?. destruct H2 as [? ?]; try done. split; [lia|done].
      * intros e He. destruct (H3 e He) as [? ?]. split; [lia|done].
      * intros ? ?. apply H4; [lia|done].
      * done.
Qed.

Lemma CursorChain_first cursor xs ending x :
  CursorChain requestFor cursor xs ending →
  xs !! 0 = Some x → request x = requestFor cursor.
Proof. destruct 1; cbn; intros; by simplify_eq. Qed.

Lemma CursorChain_unfinished cursor xs :
  CursorChain requestFor cursor xs Unfinished →
  Forall (λ x, failed x = None ∧ nextCursor x ≠ "") xs.
Proof.
  remember Unfinished as ending eqn:E. induction 1; try done.
  constructor; [done|auto].
Qed.
End Chains.

Section ListOperations.
Context {service : Service}.
Implicit Types st : State service.

Lemma valuesAgree_start values0 : valuesAgree values0 "" values0.
Proof. by split. Qed.

Lemma ListEngagements_pages fuel (config : ListEngagementsConfig.t) st :
  ListEngagementsConfig.After config = None →
  ∃ xs ending,
    let run := ListEngagements service fuel (Some config) st in
    exchangesSince st (stateOf run) = xs ∧
    CursorChain (ListEngagements_request config) "" xs ending ∧
    run = listOutcome (concat (engagementsOf <$> xs)) ending (stateOf run) ∧
    (ending = Unfinished → length xs = fuel).
Proof.
  intros Hafter. unfold ListEngagements. rewrite Hafter.
  destruct (ListEngagements_loop_chain fuel (Some config)
              ("objects/" +:+ ListEngagementsConfig.Type_ config)
              (ListEngagements_values config ∅) Hafter ""
              (ListEngagements_values config ∅) [] st
              (valuesAgree_start _))
    as (xs & ending & Hchain & Hlog & Hrun & Hlen).
  exists xs, ending. cbn zeta in *. split_and!; try done.
  by apply exchangesSince_app.
Qed.

Lemma GetOwners_pages fuel (config : option GetOwnersConfig.t) st :
  config ≫= GetOwnersConfig.After = None →
  ∃ xs ending,
    let run := GetOwners service fuel config st in
    exchangesSince st (stateOf run) = xs ∧
    CursorChain (GetOwners_request config) "" xs ending ∧
    run = listOutcome (concat (ownersOf <$> xs)) ending (stateOf run) ∧
    (ending = Unfinished → length xs = fuel).
Proof.
  intros Hafter. unfold GetOwners, GetOwners_request.
  set (values0 := match config with
                  | Some c => GetOwners_values c ∅ | None => ∅ end).
  assert ((match config with
           | Some c => (GetOwners_values c ∅,
                        match GetOwnersConfig.After c with
                        | Some a => a | None => "" end)
           | None => (∅, "")
           end) = (values0, "")) as ->.
  { destruct config as [c|]; [|done]. cbn in Hafter. by rewrite Hafter. }
  destruct (GetOwners_loop_chain fuel config "owners" values0 Hafter ""
              values0 [] st (valuesAgree_start _))
    as (xs & ending & Hchain & Hlog & Hrun & Hlen).
  exists xs, ending. cbn zeta in *. split_and!; try done.
  by apply exchangesSince_app.
Qed.

(** With an explicit cursor [ListEngagements] and [GetOwners] make one
    request, for that cursor, and return the records of its response. *)
Lemma ListEngagements_single fuel (config : ListEngagementsConfig.t)
    cursor st :
  ListEngagementsConfig.After config = Some cursor →
  ∃ x,
    let run := ListEngagements service (S fuel) (Some config) st in
    exchangesSince st (stateOf run) = [x] ∧
    request x = ListEngagements_request config cursor ∧
    run = match failed x with
          | Some e => Returned (None, Some e) (stateOf run)
          | None => Returned (Some (engagementsOf x), None) (stateOf run)
          end.
Proof.
  intros Hafter. unfold ListEngagements. rewrite Hafter.
  destruct (ListEngagements_loop_explicit fuel config cursor
              ("objects/" +:+ ListEngagementsConfig.Type_ config) cursor
              (ListEngagements_values config ∅) [] st Hafter)
    as (x & Hlog & Hreq & Hrun).
  exists x. cbn zeta in *. split_and!; try done.
  by apply exchangesSince_app.
Qed.

Lemma GetOwners_single fuel (config : GetOwnersConfig.t) cursor st :
  GetOwnersConfig.After config = Some cursor →
  ∃ x,
    let run := GetOwners service (S fuel) (Some config) st in
    exchangesSince st (stateOf run) = [x] ∧
    request x = GetOwners_request (Some config) cursor ∧
    run = match failed x with
          | Some e => Returned (None, Some e) (stateOf run)
          | None => Returned (Some (ownersOf x), None) (stateOf run)
          end.
Proof.
  intros Hafter. unfold GetOwners. rewrite Hafter.
  destruct (GetOwners_loop_explicit fuel config cursor
              "owners" cursor (GetOwners_values config ∅) [] st Hafter)
    as (x & Hlog & Hreq & Hrun).
  exists x. cbn zeta in *. split_and!; try done.
  by apply exchangesSince_app.
Qed.

Lemma ListEngagements_failure fuel config st i x e :
  let run := ListEngagements service fuel config st in
  exchangesSince st (stateOf run) !! i = Some x →
  failed x = Some e →
  run = Returned (None, Some e) (stateOf run) ∧
  length (exchangesSince st (stateOf run)) = S i.
Proof.
  intros run Hx Hfail. subst run.
  destruct config as [config|]; last first.
  { unfold ListEngagements in Hx. cbn [stateOf] in Hx.
    by rewrite exchangesSince_refl in Hx. }
  destruct (ListEngagementsConfig.After config) as [cursor|] eqn:Hafter.
  - destruct fuel as [|fuel].
    { unfold ListEngagements in Hx. rewrite Hafter in Hx.
      cbn [ListEngagements_loop stateOf] in Hx.
      by rewrite exchangesSince_refl in Hx. }
    destruct (ListEngagements_single fuel config cursor st Hafter)
      as (x0 & Hxs & _ & Hrun). cbn zeta in *.
    rewrite Hxs in Hx |- *.
    apply list_lookup_singleton_Some in Hx as [-> ->].
    rewrite Hfail in Hrun. done.
  - destruct (ListEngagements_pages fuel config st Hafter)
      as (xs & ending & Hxs & Hchain & Hrun & _). cbn zeta in *.
    rewrite Hxs in Hx |- *.
    destruct (CursorChain_positions _ _ _ _ Hchain i x Hx)
      as (_ & _ & H & _).
    destruct (H e Hfail) as [Hlen ->]. done.
Qed.

Lemma GetOwners_failure fuel config st i x e :
  let run := GetOwners service fuel config st in
  exchangesSince st (stateOf run) !! i = Some x →
  failed x = Some e →
  run = Returned (None, Some e) (stateOf run) ∧
  length (exchangesSince st (stateOf run)) = S i.
Proof.
  intros run Hx Hfail. subst run.
  destruct (config ≫= GetOwnersConfig.After) as [cursor|] eqn:Hafter.
  - destruct config as [config|]; [cbn in Hafter|done].
    destruct fuel as [|fuel].
    { unfold GetOwners in Hx. rewrite Hafter in Hx.
      cbn [GetOwners_loop stateOf] in Hx.
      by rewrite exchangesSince_refl in Hx. }
    destruct (GetOwners_single fuel config cursor st Hafter)
      as (x0 & Hxs & _ & Hrun). cbn zeta in *.
    rewrite Hxs in Hx |- *.
    apply list_lookup_singleton_Some in Hx as [-> ->].
    rewrite Hfail in Hrun. done.
  - destruct (GetOwners_pages fuel config st Hafter)
      as (xs & ending & Hxs & Hchain & Hrun & _). cbn zeta in *.
    rewrite Hxs in Hx |- *.
    destruct (CursorChain_positions _ _ _ _ Hchain i x Hx)
      as (_ & _ & H & _).
    destruct (H e Hfail) as [Hlen ->]. done.
Qed.
End ListOperations.

Section Search.
Context {service : Service}.
Implicit Types st : State service.

Lemma storeCursor_next cursor next config :
  next ≠ "" →
  {| SearchObjectsConfig.After := Some next;
     SearchObjectsConfig.Criteria :=
       SearchObjectsConfig.Criteria (storeCursor cursor config) |}
  = storeCursor next config.
Proof.
  intros Hnext. unfold storeCursor.
  rewrite (decide_False (P := next = "")) by done.
  by destruct (decide (cursor = "")).
Qed.

Lemma storeCursor_Criteria cursor config :
  SearchObjectsConfig.Criteria (storeCursor cursor config) =
  SearchObjectsConfig.Criteria config.
Proof. unfold storeCursor. by destruct (decide _). Qed.

(** The loop of [SearchEngagements] when the local [after] is nil: it
    follows the cursors, writing each one into the configuration. *)
Lemma SearchEngagements_loop_chain fuel objectType config0 :
  ∀ cursor engagements st,
    ∃ xs ending,
      let run := SearchEngagements_loop service fuel
                   ("objects/" +:+ objectType +:+ "/search") None
                   (storeCursor cursor config0) engagements st in
      CursorChain (SearchEngagements_request objectType config0) cursor xs
        ending ∧
      log (stateOf run) = log st ++ xs ∧
      (ending = Unfinished → length xs = fuel) ∧
      run =
        match ending with
        | Stopped =>
            Returned ((Some (engagements ++ concat (engagementsOf <$> xs)),
                       None),
                      storeCursor (lastFollowed cursor xs) config0)
              (stateOf run)
        | Failed e =>
            Returned ((None, Some e),
                      storeCursor (lastFollowed cursor xs) config0)
              (stateOf run)
        | Unfinished => OutOfFuel (stateOf run)
        end.
Proof.
  induction fuel as [|fuel IH]; intros cursor engagements st.
  { chain_idle. }
  cbn [SearchEngagements_loop].
  fold (SearchEngagements_request objectType config0 cursor).
  pose proof (call_log KEngagementsResponse
                (SearchEngagements_request objectType config0 cursor)
                EngagementsResponse.zero st) as Hlog.
  destruct (call _ _ _ _ _) as [st1 out]. cbn [fst snd] in Hlog.
  set (x := Build_Exchange _ _ out) in Hlog.
  destruct (err out) as [e|] eqn:Herr.
  { chain_fails x e. }
  rewrite bool_decide_eq_false_2 by (by intros []).
  destruct (EngagementsResponse.Paging (model out)) as [paging|] eqn:Hpaging.
  2: { chain_stops x Hpaging. }
  destruct (decide (PagingNext.After (Next paging) = "")) as [Hstop|Hnext].
  { chain_stops x Hpaging. }
  rewrite storeCursor_next by done.
  destruct (IH (PagingNext.After (Next paging))
               (engagements ++ EngagementsResponse.Results (model out)) st1)
    as (xs & ending & Hchain & Hlog' & Hlen & Hrun).
  assert (nextCursor x = PagingNext.After (Next paging)) as Hcursor.
  { unfold nextCursor. cbn. by rewrite Hpaging. }
  exists (x :: xs), ending. cbn zeta in *. split_and!.
  - apply chain_next; try done; by rewrite Hcursor.
  - rewrite Hlog', Hlog. by rewrite <-app_assoc.
  - intros ->. cbn. by rewrite Hlen.
  - rewrite Hrun at 1. cbn [fmap list_fmap concat lastFollowed].
    rewrite Hcursor. fold (engagementsOf <$> xs).
    change (engagementsOf x) with (EngagementsResponse.Results (model out)).
    rewrite <-app_assoc.
    destruct xs as [|y xs]; [|done].
    inversion Hchain; subst. done.
Qed.
End Search.

Section SearchOperation.
Context {service : Service}.
Implicit Types st : State service.

Lemma SearchEngagements_request_start objectType config :
  SearchEngagements_request objectType config "" =
  searchRequest objectType config.
Proof. done. Qed.

(** Without a cursor: the request before the loop, then the chain. *)
Lemma SearchEngagements_pages fuel objectType
    (config : SearchObjectsConfig.t) st :
  SearchObjectsConfig.After config = None →
  ∃ x0 xs ending,
    let run := SearchEngagements service fuel objectType (Some config) st in
    exchangesSince st (stateOf run) = x0 :: xs ∧
    request x0 = searchRequest objectType config ∧
    match failed x0 with
    | Some e => xs = [] ∧ run = Returned ((None, Some e), Some config)
                                  (stateOf run)
    | None =>
        CursorChain (SearchEngagements_request objectType config) "" xs
          ending ∧
        (ending = Unfinished → length xs = fuel) ∧
        run =
          match ending with
          | Stopped =>
              Returned ((Some (concat (engagementsOf <$> xs)), None),
                        Some (storeCursor (lastFollowed "" xs) config))
                (stateOf run)
          | Failed e =>
              Returned ((None, Some e),
                        Some (storeCursor (lastFollowed "" xs) config))
                (stateOf run)
          | Unfinished => OutOfFuel (stateOf run)
          end
    end.
Proof.
  intros Hafter. unfold SearchEngagements.
  fold (searchRequest objectType config).
  pose proof (call_log KEngagementsResponse (searchRequest objectType config)
                EngagementsResponse.zero st) as Hlog.
  destruct (call _ _ _ _ _) as [st1 out]. cbn [fst snd] in Hlog.
  set (x0 := Build_Exchange _ _ out) in Hlog.
  rewrite Hafter. unfold failed.
  destruct (err out) as [e|] eqn:Herr.
  { exists x0, [], Unfinished. subst x0. cbn. rewrite Herr.
    split_and!; try done. by apply exchangesSince_app. }
  destruct (SearchEngagements_loop_chain fuel objectType config "" [] st1)
    as (xs & ending & Hchain & Hlog' & Hlen & Hrun).
  cbn zeta in Hlog', Hrun. change (storeCursor "" config) with config in *.
  exists x0, xs, ending. subst x0. cbn zeta. cbn [outcome kind]. rewrite Herr.
  rewrite Hrun in *. clear Hrun.
  destruct ending as [|e|]; cbn [stateOf] in *; split_and!; try done;
    apply exchangesSince_app; rewrite Hlog', Hlog; by rewrite <-app_assoc.
Qed.

(** With an explicit cursor: the request before the loop, and the same
    request again in the loop, which then leaves. *)
Lemma SearchEngagements_twice fuel objectType
    (config : SearchObjectsConfig.t) cursor st :
  SearchObjectsConfig.After config = Some cursor →
  ∃ x0,
    let run :=
      SearchEngagements service (S fuel) objectType (Some config) st in
    request x0 = searchRequest objectType config ∧
    match failed x0 with
    | Some e =>
        exchangesSince st (stateOf run) = [x0] ∧
        run = Returned ((None, Some e), Some config) (stateOf run)
    | None =>
        ∃ x1,
          exchangesSince st (stateOf run) = [x0; x1] ∧
          request x1 = searchRequest objectType config ∧
          run = match failed x1 with
                | Some e => Returned ((None, Some e), Some config)
                              (stateOf run)
                | None => Returned ((Some (engagementsOf x1), None),
                                    Some config) (stateOf run)
                end
    end.
Proof.
  intros Hafter. unfold SearchEngagements.
  fold (searchRequest objectType config).
  pose proof (call_log KEngagementsResponse (searchRequest objectType config)
                EngagementsResponse.zero st) as Hlog.
  destruct (call _ _ _ _ _) as [st1 out]. cbn [fst snd] in Hlog.
  exists (Build_Exchange (searchRequest objectType config) _ out).
  unfold failed. cbn zeta. cbn [outcome request kind].
  split; [done|].
  destruct (err out) as [e|] eqn:Herr.
  { cbn. split; [|done]. by apply exchangesSince_app. }
  cbn [SearchEngagements_loop]. fold (searchRequest objectType config).
  pose proof (call_log KEngagementsResponse (searchRequest objectType config)
                EngagementsResponse.zero st1) as Hlog1.
  destruct (call _ _ _ _ st1) as [st2 out1]. cbn [fst snd] in Hlog1.
  exists (Build_Exchange (searchRequest objectType config) _ out1).
  rewrite Hafter, bool_decide_eq_true_2 by done. cbn.
  rewrite Hlog in Hlog1. rewrite <-app_assoc in Hlog1.
  destruct (err out1); cbn; split_and!; try done;
    by apply exchangesSince_app.
Qed.
(** A failed exchange of [SearchEngagements], the one before the loop
    included, is the last one and its error is returned. *)
Lemma SearchEngagements_failure fuel objectType config st i x e :
  let run := SearchEngagements service fuel objectType config st in
  exchangesSince st (stateOf run) !! i = Some x →
  failed x = Some e →
  (∃ config', run = Returned ((None, Some e), config') (stateOf run)) ∧
  length (exchangesSince st (stateOf run)) = S i.
Proof.
  intros run Hx Hfail. subst run.
  destruct config as [config|]; last first.
  { unfold SearchEngagements in Hx. cbn [stateOf] in Hx.
    by rewrite exchangesSince_refl in Hx. }
  destruct (SearchObjectsConfig.After config) as [cursor|] eqn:Hafter.
  - destruct fuel as [|fuel].
    + unfold SearchEngagements in *.
      pose proof (call_log KEngagementsResponse
                    (searchRequest objectType config)
                    EngagementsResponse.zero st) as Hlog.
      fold (searchRequest objectType config) in Hx |- *.
      destruct (call _ _ _ _ _) as [st1 out]. cbn [fst snd] in Hlog.
      destruct (err out) as [e0|] eqn:Herr; cbn [SearchEngagements_loop stateOf] in *;
        rewrite (exchangesSince_app _ _ _ Hlog) in *;
        apply list_lookup_singleton_Some in Hx as [-> <-];
        unfold failed in Hfail; cbn [outcome kind] in Hfail.
      * rewrite Herr in Hfail. injection Hfail as ->. split; [by eexists|done].
      * congruence.
    + destruct (SearchEngagements_twice fuel objectType config cursor st Hafter)
        as (x0 & _ & Hcases). cbn zeta in *.
      destruct (failed x0) as [e0|] eqn:Hfail0.
      * destruct Hcases as [Hxs Hrun]. rewrite Hxs in *.
        apply list_lookup_singleton_Some in Hx as [-> <-].
        rewrite Hfail0 in Hfail. injection Hfail as ->.
        split; [by eexists|done].
      * destruct Hcases as (x1 & Hxs & _ & Hrun). rewrite Hxs in *.
        destruct i as [|[|i]]; cbn in Hx; simplify_eq.
        rewrite Hfail in Hrun. split; [by eexists|done].
  - destruct (SearchEngagements_pages fuel objectType config st Hafter)
      as (x0 & xs & ending & Hxs & _ & Hcases). cbn zeta in *.
    rewrite Hxs in *.
    destruct (failed x0) as [e0|] eqn:Hfail0.
    + destruct Hcases as [-> Hrun].
      apply list_lookup_singleton_Some in Hx as [-> <-].
      rewrite Hfail0 in Hfail. injection Hfail as ->.
      split; [by eexists|done].
    + destruct Hcases as (Hchain & _ & Hrun).
      destruct i as [|i]; cbn in Hx; [simplify_eq|].
      destruct (CursorChain_positions _ _ _ _ Hchain i x Hx)
        as (_ & _ & H & _).
      destruct (H e Hfail) as [Hlen ->].
      split; [by eexists|]. cbn. by rewrite Hlen.
Qed.
End SearchOperation.

Section Chunks.
Context {A : Type}.
Implicit Types items : list A.

Lemma chunksFrom_enough fuel size items :
  0 < size → length items ≤ fuel →
  chunksFrom fuel size items = chunks size items.
Proof.
  intros Hsize. unfold chunks.
  revert items. induction (lt_wf fuel) as [fuel _ IH]. intros items Hfuel.
  destruct items as [|a items]; [by destruct fuel|].
  destruct fuel as [|fuel]; [cbn in Hfuel; lia|].
  cbn [length chunksFrom]. f_equal.
  assert (length (drop size (a :: items)) ≤ length items) as Hdrop.
  { rewrite length_drop. cbn. lia. }
  rewrite (IH fuel) by (cbn in Hfuel; lia).
  symmetry. apply (IH (length items)); [cbn in Hfuel; lia|done].
Qed.

Lemma chunks_nil size : chunks size (@nil A) = [].
Proof. done. Qed.

(** The first chunk and the chunks of what follows it. *)
Lemma chunks_step size items :
  0 < size → items ≠ [] →
  chunks size items = take size items :: chunks size (drop size items).
Proof.
  intros Hsize Hitems. destruct items as [|a items]; [done|].
  unfold chunks at 1. cbn [length chunksFrom]. f_equal.
  apply chunksFrom_enough; [done|]. rewrite length_drop. cbn. lia.
Qed.

(** Induction that takes a chunk off the front. *)
Lemma chunk_ind size (P : list A → Prop) :
  0 < size →
  P [] →
  (∀ items, items ≠ [] → P (drop size items) → P items) →
  ∀ items, P items.
Proof.
  intros Hsize Hnil Hstep items.
  assert (∀ n items, length items ≤ n → P items) as H; [|by eapply H].
  clear items. induction n as [|n IH]; intros items Hn.
  - destruct items; [done|cbn in Hn; lia].
  - destruct (decide (items = [])) as [->|Hitems]; [done|].
    apply Hstep; [done|]. apply IH. rewrite length_drop.
    destruct items; [done|]. cbn in *. lia.
Qed.

Lemma chunks_concat size items :
  0 < size → concat (chunks size items) = items.
Proof.
  intros Hsize. revert items. apply (chunk_ind size); [done..|].
  intros items Hitems IH.
  rewrite chunks_step by done. cbn [concat]. rewrite IH. apply take_drop.
Qed.

Lemma chunks_sizes size items :
  0 < size →
  Forall (λ chunk, 0 < length chunk ≤ size) (chunks size items).
Proof.
  intros Hsize. revert items. apply (chunk_ind size); [done|constructor|].
  intros items Hitems IH.
  rewrite chunks_step by done. constructor; [|done].
  rewrite length_take. destruct items; [done|]. cbn. lia.
Qed.

Lemma chunksFrom_lengths fuel size items :
  length <$> chunksFrom fuel size items = chunkSizes fuel size (length items).
Proof.
  revert items. induction fuel as [|fuel IH]; intros items; [done|].
  destruct items as [|a items]; [done|].
  cbn [chunksFrom chunkSizes length fmap list_fmap]. f_equal.
  - by rewrite length_take.
  - fold (length <$> chunksFrom fuel size (drop size (a :: items))).
    rewrite IH. by rewrite length_drop.
Qed.

Lemma chunks_lengths size items :
  length <$> chunks size items =
  chunkSizes (length items) size (length items).
Proof. apply chunksFrom_lengths. Qed.
End Chunks.

Section BatchRuns.
Context (tolerant : bool).

Lemma BatchRun_positions planned xs ending :
  BatchRun tolerant planned xs ending →
  request <$> xs = take (length xs) planned ∧
  length xs ≤ length planned ∧
  (ending = Stopped → length xs = length planned) ∧
  (ending = Unfinished → length xs < length planned) ∧
  ∀ i x, xs !! i = Some x →
    (∀ e, aborts tolerant x = Some e →
          S i = length xs ∧ ending = Failed e) ∧
    (aborts tolerant x = None →
       S i < length planned → ending ≠ Unfinished → S i < length xs) ∧
    (S i < length xs → aborts tolerant x = None) ∧
    (∀ e, ending = Failed e → S i = length xs →
          aborts tolerant x = Some e).
Proof.
  induction 1 as [|planned rest|planned rest x0 e Hreq Habort
                 |planned rest x0 xs ending Hreq Hok Hrun IH].
  - split_and!; try done.
  - split_and!; try done; cbn; lia.
  - split_and!; try done; cbn; try lia.
    + by rewrite Hreq, take_0.
    + intros i x Hx. apply list_lookup_singleton_Some in Hx as [-> ->].
      split_and!; try done; try lia.
      * intros e' He'. split; [done|]. congruence.
      * congruence.
      * intros e' [= <-] _. done.
  - destruct IH as (IH1 & IH2 & IH3 & IH4 & IH5).
    split_and!; cbn; try lia.
    + by rewrite Hreq, IH1.
    + intros ?. rewrite IH3; done.
    + intros ?. specialize (IH4 ltac:(done)). lia.
    + intros [|i] x Hx; cbn in Hx.
      * injection Hx as Hx. subst x. split_and!.
        -- congruence.
        -- intros _ Hlen Hending. destruct Hrun; cbn in *; try lia. done.
        -- done.
        -- intros e -> Hlen. destruct xs; [|cbn in Hlen; lia].
           inversion Hrun.
      * destruct (IH5 i x Hx) as (H1 & H2 & H3 & H4). split_and!.
        -- intros e He. destruct (H1 e He). split; [lia|done].
        -- intros ? ? ?. specialize (H2 ltac:(done) ltac:(lia) ltac:(done)).
           lia.
        -- intros ?. apply H3. lia.
        -- intros e ? ?. apply H4; [done|lia].
Qed.
End BatchRuns.

Section BatchLoops.
Context {service : Service}.
Implicit Types st : State service.

Lemma foldl_snoc {A} (items acc : list A) :
  foldl (λ acc item, acc ++ [item]) acc items = acc ++ items.
Proof.
  revert acc. induction items as [|item items IH]; intros acc; cbn.
  - by rewrite app_nil_r.
  - rewrite IH. by rewrite <-app_assoc.
Qed.

Lemma batchArchiveEngagements_call engagementType engagementIds st :
  batchArchiveEngagements service engagementType engagementIds st =
  ((call service KNone (archiveRequest engagementType engagementIds) tt st).1,
   err (call service KNone (archiveRequest engagementType engagementIds) tt
          st).2).
Proof.
  unfold batchArchiveEngagements. rewrite foldl_snoc. cbn [app].
  fold (archiveRequest engagementType engagementIds).
  by destruct (call _ _ _ _ _).
Qed.

Lemma maxItemsPerBatch_pos : 0 < maxItemsPerBatch.
Proof. unfold maxItemsPerBatch. lia. Qed.

(** The slice taken by the loop is the next chunk in both branches. *)
Lemma archive_chunk (engagementIds : list string) index :
  index < length engagementIds →
  (if decide (index + maxItemsPerBatch < length engagementIds)
   then slice engagementIds index (index + maxItemsPerBatch)
   else drop index engagementIds)
  = take maxItemsPerBatch (drop index engagementIds).
Proof.
  intros Hindex. destruct (decide _) as [Hmore|Hlast].
  - unfold slice. f_equal. lia.
  - symmetry. apply take_ge. rewrite length_drop. lia.
Qed.

Lemma BatchArchiveEngagements_loop_run fuel engagementType engagementIds :
  ∀ index st,
    ∃ xs ending,
      let run := BatchArchiveEngagements_loop service fuel engagementType
                   engagementIds index st in
      BatchRun false
        (archiveRequest engagementType <$>
           chunks maxItemsPerBatch (drop index engagementIds)) xs ending ∧
      log (stateOf run) = log st ++ xs ∧
      (ending = Unfinished → length xs = fuel) ∧
      run = match ending with
            | Stopped => Returned None (stateOf run)
            | Failed e => Returned (Some e) (stateOf run)
            | Unfinished => OutOfFuel (stateOf run)
            end.
Proof.
  pose proof maxItemsPerBatch_pos as Hmax.
  induction fuel as [|fuel IH]; intros index st.
  - cbn [BatchArchiveEngagements_loop].
    destruct (decide (index < length engagementIds)) as [Hindex|Hindex].
    + exists [], Unfinished. cbn zeta. cbn [stateOf].
      rewrite chunks_step; [|done|].
      * split_and!; try done; [constructor|by rewrite app_nil_r].
      * intros Hnil. apply (f_equal length) in Hnil.
        rewrite length_drop in Hnil. cbn in Hnil. lia.
    + exists [], Stopped. cbn zeta. cbn [stateOf].
      rewrite drop_ge by lia.
      split_and!; try done; [constructor|by rewrite app_nil_r].
  - cbn [BatchArchiveEngagements_loop].
    destruct (decide (index < length engagementIds)) as [Hindex|Hindex].
    2: { exists [], Stopped. cbn zeta. cbn [stateOf].
         rewrite drop_ge by lia.
         split_and!; try done; [constructor|by rewrite app_nil_r]. }
    rewrite archive_chunk by done.
    rewrite batchArchiveEngagements_call.
    set (planned := archiveRequest engagementType
                      (take maxItemsPerBatch (drop index engagementIds))).
    pose proof (call_log KNone planned tt st) as Hlog.
    destruct (call _ _ _ _ _) as [st1 out]. cbn [fst snd] in Hlog |- *.
    set (x := Build_Exchange _ _ out) in Hlog.
    rewrite chunks_step; [|done|]; last first.
    { intros Hnil. apply (f_equal length) in Hnil.
      rewrite length_drop in Hnil. cbn in Hnil. lia. }
    rewrite drop_drop. cbn [fmap list_fmap]. fold planned.
    fold (archiveRequest engagementType <$>
            chunks maxItemsPerBatch
              (drop (index + maxItemsPerBatch) engagementIds)).
    destruct (err out) as [e|] eqn:Herr.
    { chain_fails x e. }
    destruct (IH (index + maxItemsPerBatch) st1)
      as (xs & ending & Hrun & Hlog' & Hlen & Hres).
    exists (x :: xs), ending. cbn zeta in *. split_and!.
    + by constructor.
    + rewrite Hlog', Hlog. by rewrite <-app_assoc.
    + intros ->. cbn. by rewrite Hlen.
    + done.
Qed.
End BatchLoops.

Section AssociationLoops.
Context {service : Service}.
Implicit Types st : State service.

Lemma maxBatchSize_pos : 0 < maxBatchSize.
Proof. apply Nat.ltb_lt. by vm_compute. Qed.

Lemma collectInputs_take ids : ∀ i inputs,
  i ≤ maxBatchSize →
  collectInputs i ids inputs = inputs ++ take (maxBatchSize - i) ids.
Proof.
  induction ids as [|id ids IH]; intros i inputs Hi; cbn [collectInputs].
  - by rewrite take_nil, app_nil_r.
  - destruct (decide (i = maxBatchSize)) as [->|Hne].
    + by rewrite Nat.sub_diag, take_0, app_nil_r.
    + rewrite IH by lia. rewrite <-app_assoc. cbn [app]. f_equal.
      replace (maxBatchSize - i) with (S (maxBatchSize - S i)) by lia.
      done.
Qed.

Lemma collectInputs_chunk ids :
  collectInputs 0 ids [] = take maxBatchSize ids.
Proof. rewrite collectInputs_take by lia. by rewrite Nat.sub_0_r. Qed.

Lemma BatchGetAssociations_loop_run fuel endpoint :
  ∀ ids associationsV4Set st,
    ∃ xs ending,
      let run := BatchGetAssociations_loop service fuel endpoint ids
                   associationsV4Set st in
      BatchRun false (readRequest endpoint <$> chunks maxBatchSize ids)
        xs ending ∧
      log (stateOf run) = log st ++ xs ∧
      (ending = Unfinished → length xs = fuel) ∧
      run = match ending with
            | Stopped =>
                Returned
                  (Some {| AssociationsV4Set.Results :=
                             AssociationsV4Set.Results associationsV4Set ++
                             concat (associationsOf <$> xs) |}, None)
                  (stateOf run)
            | Failed e => Returned (None, Some e) (stateOf run)
            | Unfinished => OutOfFuel (stateOf run)
            end.
Proof.
  pose proof maxBatchSize_pos as Hmax.
  assert (∀ (set : AssociationsV4Set.t),
            {| AssociationsV4Set.Results :=
                 AssociationsV4Set.Results set ++ [] |} = set) as Heta.
  { intros [results]. cbn. by rewrite app_nil_r. }
  assert (∀ ids : list string, 0 < length ids → ids ≠ []) as Hnonempty.
  { intros [|] ?; [cbn in *; lia|done]. }
  induction fuel as [|fuel IH]; intros ids set st;
    cbn [BatchGetAssociations_loop];
    destruct (decide (0 < length ids)) as [Hids|Hids].
  - exists [], Unfinished. cbn zeta. cbn [stateOf].
    rewrite chunks_step by auto.
    split_and!; try done; [constructor|by rewrite app_nil_r].
  - exists [], Stopped. cbn zeta. cbn [stateOf fmap list_fmap concat].
    destruct ids; [|cbn in Hids; lia]. rewrite Heta.
    split_and!; try done; [constructor|by rewrite app_nil_r].
  - rewrite collectInputs_chunk.
    fold (readRequest endpoint (take maxBatchSize ids)).
    set (planned := readRequest endpoint (take maxBatchSize ids)).
    pose proof (call_log KAssociationsV4Set planned AssociationsV4Set.zero st)
      as Hlog.
    destruct (call _ _ _ _ _) as [st1 out]. cbn [fst snd] in Hlog.
    set (x := Build_Exchange _ _ out) in Hlog.
    rewrite chunks_step by auto. cbn [fmap list_fmap]. fold planned.
    fold (readRequest endpoint <$> chunks maxBatchSize (drop maxBatchSize ids)).
    destruct (err out) as [e|] eqn:Herr.
    { chain_fails x e. }
    destruct (decide (maxBatchSize < length ids)) as [Hmore|Hlast].
    + destruct (IH (drop maxBatchSize ids)
                  {| AssociationsV4Set.Results :=
                       AssociationsV4Set.Results set ++
                       AssociationsV4Set.Results (model out) |} st1)
        as (xs & ending & Hrun & Hlog' & Hlen & Hres).
      exists (x :: xs), ending. cbn zeta in *. split_and!.
      * by constructor.
      * rewrite Hlog', Hlog. by rewrite <-app_assoc.
      * intros ->. cbn. by rewrite Hlen.
      * rewrite Hres at 1. cbn [AssociationsV4Set.Results fmap list_fmap concat].
        fold (associationsOf <$> xs).
        change (associationsOf x) with (AssociationsV4Set.Results (model out)).
        by rewrite <-app_assoc.
    + exists [x], Stopped. cbn zeta. cbn [stateOf].
      rewrite (drop_ge ids) by lia. split_and!; try done.
      * constructor; [done..|]. constructor.
      * cbn. by rewrite app_nil_r.
  - exists [], Stopped. cbn zeta. cbn [stateOf fmap list_fmap concat].
    destruct ids; [|cbn in Hids; lia]. rewrite Heta.
    split_and!; try done; [constructor|by rewrite app_nil_r].
Qed.

Lemma checkedSlice_valid {A} (s : list A) batch :
  validBatch (length s) batch →
  checkedSlice s (startIndex batch) (endIndex batch) =
  Some (slice s (startIndex batch) (endIndex batch)).
Proof. intros H. unfold checkedSlice. by rewrite decide_True. Qed.

Lemma batchEngagements_loop_run action config :
  ∀ todo engagements st,
    Forall (validBatch (length (BatchObjectsConfig.Inputs config))) todo →
    ∃ xs ending,
      let run := batchEngagements_loop service action config todo
                   engagements st in
      BatchRun true (batchRequest action config <$> todo) xs ending ∧
      log (stateOf run) = log st ++ xs ∧
      stdout (stateOf run) =
        stdout st ++ concat (zip_with printedFor todo xs) ∧
      ending ≠ Unfinished ∧
      run = listOutcome (engagements ++ concat (engagementsOf <$> xs))
              ending (stateOf run).
Proof.
  induction todo as [|batch todo IH]; intros engagements st Hvalid.
  { exists [], Stopped. cbn. rewrite !app_nil_r.
    split_and!; try done. constructor. }
  apply Forall_cons in Hvalid as [Hbatch Hvalid].
  cbn [batchEngagements_loop]. rewrite checkedSlice_valid by done.
  fold (batchRequest action config batch).
  pose proof (call_log KBatchEngagementsResponse
                (batchRequest action config batch)
                BatchEngagementsResponse.zero st) as Hlog.
  pose proof (call_stdout KBatchEngagementsResponse
                (batchRequest action config batch)
                BatchEngagementsResponse.zero st) as Hout.
  destruct (call _ _ _ _ _) as [st1 out]. cbn [fst snd] in Hlog, Hout.
  set (x := Build_Exchange _ _ out) in Hlog.
  assert (multiStatus x = isMultiStatus (response out)) as Hmulti by done.
  assert (failed x = err out) as Hfailed by done.
  assert (engagementsOf x = BatchEngagementsResponse.Results (model out))
    as Hresults by done.
  assert (batchErrorsOf x = BatchEngagementsResponse.Errors (model out))
    as Herrors by done.
  cbn [fmap list_fmap].
  fold (batchRequest action config <$> todo).
  destruct (isMultiStatus (response out)) eqn:Hstatus.
  - destruct (IH (engagements ++ BatchEngagementsResponse.Results (model out))
                (Println service (PrintBatch (startIndex batch))
                   (Println service
                      (PrintErrors
                         (BatchEngagementsResponse.Errors (model out))) st1)))
      as (xs & ending & Hrun & Hlog' & Hout' & Hending & Hres);
      [done|].
    exists (x :: xs), ending. cbn zeta in *. split_and!; try done.
    + constructor; try done. unfold aborts. by rewrite Hmulti.
    + rewrite Hlog'. cbn [Println log]. rewrite Hlog. by rewrite <-app_assoc.
    + rewrite Hout'. cbn [Println stdout zip_with concat].
      unfold printedFor at 2. rewrite Hmulti, Herrors, Hout.
      by rewrite <-!app_assoc.
    + rewrite Hres at 1. cbn [fmap list_fmap concat].
      fold (engagementsOf <$> xs). rewrite Hresults.
      by rewrite <-app_assoc.
  - destruct (err out) as [e|] eqn:Herr.
    { exists [x], (Failed e). cbn [stateOf listOutcome zip_with concat].
      unfold printedFor at 1. rewrite Hmulti, Hfailed.
      rewrite zip_with_nil_r. cbn [app concat]. rewrite app_nil_r, Hout.
      split_and!; try done. constructor; [done|].
      unfold aborts. by rewrite Hmulti, Hfailed. }
    destruct (IH (engagements ++ BatchEngagementsResponse.Results (model out))
                (Println service (PrintBatch (startIndex batch)) st1))
      as (xs & ending & Hrun & Hlog' & Hout' & Hending & Hres);
      [done|].
    exists (x :: xs), ending. cbn zeta in *. split_and!; try done.
    + constructor; try done. unfold aborts. by rewrite Hmulti, Hfailed.
    + rewrite Hlog'. cbn [Println log]. rewrite Hlog. by rewrite <-app_assoc.
    + rewrite Hout'. cbn [Println stdout zip_with concat].
      unfold printedFor at 2. rewrite Hmulti, Hfailed, Hout.
      by rewrite <-!app_assoc.
    + rewrite Hres at 1. cbn [fmap list_fmap concat].
      fold (engagementsOf <$> xs). rewrite Hresults.
      by rewrite <-app_assoc.
Qed.
End AssociationLoops.

Section BatchOperations.
Context {service : Service}.
Implicit Types st : State service.

Lemma BatchArchiveEngagements_run fuel engagementType engagementIds st :
  ∃ xs ending,
    let run := BatchArchiveEngagements service fuel engagementType
                 engagementIds st in
    exchangesSince st (stateOf run) = xs ∧
    BatchRun false
      (archiveRequest engagementType <$>
         chunks maxItemsPerBatch engagementIds) xs ending ∧
    (ending = Unfinished → length xs = fuel) ∧
    run = match ending with
          | Stopped => Returned None (stateOf run)
          | Failed e => Returned (Some e) (stateOf run)
          | Unfinished => OutOfFuel (stateOf run)
          end.
Proof.
  destruct (BatchArchiveEngagements_loop_run fuel engagementType
              engagementIds 0 st) as (xs & ending & Hrun & Hlog & Hlen & Hres).
  exists xs, ending. cbn zeta in *. rewrite drop_0 in Hrun.
  split_and!; try done. by apply exchangesSince_app.
Qed.

Lemma BatchGetAssociations_run fuel (config : BatchGetAssociationsConfig.t)
    st :
  BatchGetAssociationsConfig.Ids config ≠ [] →
  ∃ xs ending,
    let run := BatchGetAssociations service fuel (Some config) st in
    exchangesSince st (stateOf run) = xs ∧
    BatchRun false
      (associationsRequest config <$>
         chunks maxBatchSize (BatchGetAssociationsConfig.Ids config))
      xs ending ∧
    (ending = Unfinished → length xs = fuel) ∧
    run = match ending with
          | Stopped =>
              Returned
                (Some {| AssociationsV4Set.Results :=
                           concat (associationsOf <$> xs) |}, None)
                (stateOf run)
          | Failed e => Returned (None, Some e) (stateOf run)
          | Unfinished => OutOfFuel (stateOf run)
          end.
Proof.
  intros Hids. unfold BatchGetAssociations.
  rewrite decide_False; last first.
  { destruct (BatchGetAssociationsConfig.Ids config); [done|]. cbn. lia. }
  destruct (BatchGetAssociations_loop_run fuel
              ("associations/" +:+
               BatchGetAssociationsConfig.FromObjectType config +:+ "/" +:+
               BatchGetAssociationsConfig.ToObjectType config +:+
               "/batch/read")
              (BatchGetAssociationsConfig.Ids config)
              AssociationsV4Set.zero st)
    as (xs & ending & Hrun & Hlog & Hlen & Hres).
  exists xs, ending. cbn zeta in *. split_and!; try done.
  by apply exchangesSince_app.
Qed.

Lemma batchEngagements_run action (config : BatchObjectsConfig.t) st :
  let todo := batches service (length (BatchObjectsConfig.Inputs config)) in
  Forall (validBatch (length (BatchObjectsConfig.Inputs config))) todo →
  ∃ xs ending,
    let run := batchEngagements service action (Some config) st in
    exchangesSince st (stateOf run) = xs ∧
    BatchRun true (batchRequest action config <$> todo) xs ending ∧
    printedSince st (stateOf run) = concat (zip_with printedFor todo xs) ∧
    ending ≠ Unfinished ∧
    run = listOutcome (concat (engagementsOf <$> xs)) ending (stateOf run).
Proof.
  intros todo Hvalid. unfold batchEngagements.
  destruct (batchEngagements_loop_run action config todo [] st Hvalid)
    as (xs & ending & Hrun & Hlog & Hout & Hending & Hres).
  exists xs, ending. cbn zeta in *. split_and!; try done.
  - by apply exchangesSince_app.
  - by apply printedSince_app.
Qed.

(** Whatever the batches are, an exchange on which a batch create or
    update gives up is the last one, and its error is all that is
    returned. *)
Lemma batchEngagements_loop_failure action config :
  ∀ todo engagements st,
    ∃ xs,
      let run := batchEngagements_loop service action config todo
                   engagements st in
      log (stateOf run) = log st ++ xs ∧
      ∀ i x e, xs !! i = Some x → aborts true x = Some e →
        run = Returned (None, Some e) (stateOf run) ∧ length xs = S i.
Proof.
  induction todo as [|batch todo IH]; intros engagements st.
  { exists []. cbn. by rewrite app_nil_r. }
  cbn [batchEngagements_loop].
  destruct (checkedSlice _ _ _) as [inputs|].
  2: { exists []. cbn. by rewrite app_nil_r. }
  set (planned := Build_RequestConfig _ _ _).
  pose proof (call_log KBatchEngagementsResponse planned
                BatchEngagementsResponse.zero st) as Hlog.
  destruct (call _ _ _ _ _) as [st1 out]. cbn [fst snd] in Hlog.
  set (x := Build_Exchange _ _ out) in Hlog.
  assert (aborts true x =
          if isMultiStatus (response out) then None else err out) as Habort.
  { done. }
  destruct (isMultiStatus (response out)).
  - destruct (IH (engagements ++ BatchEngagementsResponse.Results (model out))
                (Println service (PrintBatch (startIndex batch))
                   (Println service
                      (PrintErrors
                         (BatchEngagementsResponse.Errors (model out))) st1)))
      as (xs & Hlog' & Hfail).
    exists (x :: xs). cbn zeta in *. split.
    + rewrite Hlog'. cbn [Println log]. rewrite Hlog. by rewrite <-app_assoc.
    + intros [|i] y e Hy Hy'; cbn in Hy.
      * injection Hy as <-. congruence.
      * destruct (Hfail i y e Hy Hy') as [Hres Hlen].
        split; [done|]. cbn. by rewrite Hlen.
  - destruct (err out) as [e0|] eqn:Herr.
    { exists [x]. cbn [stateOf]. split; [done|].
      intros i y e Hy Hy'.
      apply list_lookup_singleton_Some in Hy as [-> <-].
      rewrite Habort in Hy'. by injection Hy' as ->. }
    destruct (IH (engagements ++ BatchEngagementsResponse.Results (model out))
                (Println service (PrintBatch (startIndex batch)) st1))
      as (xs & Hlog' & Hfail).
    exists (x :: xs). cbn zeta in *. split.
    + rewrite Hlog'. cbn [Println log]. rewrite Hlog. by rewrite <-app_assoc.
    + intros [|i] y e Hy Hy'; cbn in Hy.
      * injection Hy as <-. congruence.
      * destruct (Hfail i y e Hy Hy') as [Hres Hlen].
        split; [done|]. cbn. by rewrite Hlen.
Qed.

Lemma batchEngagements_failure action config st i x e :
  let run := batchEngagements service action config st in
  exchangesSince st (stateOf run) !! i = Some x →
  multiStatus x = false →
  failed x = Some e →
  run = Returned (None, Some e) (stateOf run) ∧
  length (exchangesSince st (stateOf run)) = S i.
Proof.
  intros run Hx Hstatus Hfail. subst run.
  destruct config as [config|]; last first.
  { unfold batchEngagements in Hx. cbn [stateOf] in Hx.
    by rewrite exchangesSince_refl in Hx. }
  unfold batchEngagements in *.
  destruct (batchEngagements_loop_failure action config
              (batches service (length (BatchObjectsConfig.Inputs config)))
              [] st) as (xs & Hlog & H).
  cbn zeta in *. rewrite (exchangesSince_app _ _ _ Hlog) in *.
  apply (H i x e Hx). unfold aborts. by rewrite Hstatus.
Qed.

Lemma BatchArchiveEngagements_failure fuel engagementType engagementIds
    st i x e :
  let run := BatchArchiveEngagements service fuel engagementType
               engagementIds st in
  exchangesSince st (stateOf run) !! i = Some x →
  failed x = Some e →
  run = Returned (Some e) (stateOf run) ∧
  length (exchangesSince st (stateOf run)) = S i.
Proof.
  intros run Hx Hfail. subst run.
  destruct (BatchArchiveEngagements_run fuel engagementType engagementIds st)
    as (xs & ending & Hxs & Hrun & _ & Hres). cbn zeta in *.
  rewrite Hxs in *.
  destruct (BatchRun_positions _ _ _ _ Hrun) as (_ & _ & _ & _ & H).
  destruct (H i x Hx) as (H1 & _).
  destruct (H1 e Hfail) as [<- ->]. done.
Qed.

Lemma BatchGetAssociations_failure fuel config st i x e :
  let run := BatchGetAssociations service fuel config st in
  exchangesSince st (stateOf run) !! i = Some x →
  failed x = Some e →
  run = Returned (None, Some e) (stateOf run) ∧
  length (exchangesSince st (stateOf run)) = S i.
Proof.
  intros run Hx Hfail. subst run.
  destruct config as [config|]; last first.
  { unfold BatchGetAssociations in Hx. cbn [stateOf] in Hx.
    by rewrite exchangesSince_refl in Hx. }
  destruct (decide (BatchGetAssociationsConfig.Ids config = []))
    as [Hids|Hids].
  { unfold BatchGetAssociations in Hx. rewrite Hids in Hx.
    cbn [length stateOf] in Hx. rewrite decide_True in Hx by done.
    cbn [stateOf] in Hx. by rewrite exchangesSince_refl in Hx. }
  destruct (BatchGetAssociations_run fuel config st Hids)
    as (xs & ending & Hxs & Hrun & _ & Hres). cbn zeta in *.
  rewrite Hxs in *.
  destruct (BatchRun_positions _ _ _ _ Hrun) as (_ & _ & _ & _ & H).
  destruct (H i x Hx) as (H1 & _).
  destruct (H1 e Hfail) as [<- ->]. done.
Qed.
End BatchOperations.

Section Auxiliary.
Context {service : Service}.
Implicit Types st : State service.

Lemma ListEngagements_loop_no_panic fuel config endpoint after values
    engagements st reason st' :
  ListEngagements_loop service fuel config endpoint after values
    engagements st ≠ Panicked reason st'.
Proof.
  revert after values engagements st.
  induction fuel as [|fuel IH]; intros after values engagements st; [done|].
  cbn [ListEngagements_loop].
  destruct (call _ _ _ _ _) as [st1 out].
  destruct (err out); [done|].
  destruct (match config with Some _ => _ | None => _ end); [done|].
  destruct (EngagementsResponse.Paging _); [|done].
  destruct (decide _); [done|]. apply IH.
Qed.

(** The cursor stored last is the next cursor of the last response but
    one; a chain of at most one exchange stores none. *)
Lemma lastFollowed_chain requestFor cursor xs ending :
  CursorChain requestFor cursor xs ending →
  (length xs ≤ 1 → lastFollowed cursor xs = cursor) ∧
  (1 < length xs →
     ∃ x, xs !! (length xs - 2) = Some x ∧ nextCursor x ≠ "" ∧
          lastFollowed cursor xs = nextCursor x).
Proof.
  induction 1 as [cursor|cursor x0 e Hreq Hfail|cursor x0 Hreq Hok Hstop
                 |cursor x0 xs ending Hreq Hok Hnext Hchain IH];
    try (split; [done|cbn; lia]).
  destruct IH as [IH1 IH2]. split.
  - cbn. intros Hlen. destruct xs; [done|cbn in Hlen; lia].
  - intros Hlen. destruct xs as [|x1 xs]; [cbn in Hlen; lia|].
    destruct xs as [|x2 xs].
    + exists x0. cbn. done.
    + destruct IH2 as (x & Hx & Hx' & Hlast); [cbn; lia|].
      exists x. cbn [length] in *.
      replace (S (S (S (length xs))) - 2) with (S (S (S (length xs)) - 2))
        by lia.
      done.
Qed.


Lemma inputsOf_planned (requestFor : list string → RequestConfig)
    (planned : list (list string)) :
  (∀ ids, inputsOf (requestFor ids) = ids) →
  inputsOf <$> (requestFor <$> planned) = planned.
Proof.
  intros H. rewrite <-list_fmap_compose.
  rewrite <-(list_fmap_id planned) at 2. apply list_fmap_ext.
  intros _ ids _. apply H.
Qed.

(** The bodies of the exchanges of a batch run are the first chunks, and
    all of them when the run went through. *)
Lemma BatchRun_inputs (requestFor : list string → RequestConfig) planned
    xs ending :
  (∀ ids, inputsOf (requestFor ids) = ids) →
  BatchRun false (requestFor <$> planned) xs ending →
  inputsOf ∘ request <$> xs = take (length xs) planned ∧
  (ending = Stopped → inputsOf ∘ request <$> xs = planned) ∧
  (ending = Unfinished → length xs < length planned).
Proof.
  intros Hinputs Hrun.
  destruct (BatchRun_positions _ _ _ _ Hrun) as (Hreq & _ & Hall & Hless & _).
  rewrite length_fmap in Hall, Hless.
  assert (inputsOf ∘ request <$> xs = take (length xs) planned) as Htake.
  { rewrite list_fmap_compose, Hreq, <-fmap_take.
    by apply inputsOf_planned. }
  split_and!; try done.
  intros Hstopped. rewrite Htake, Hall by done. by apply take_ge.
Qed.

End Auxiliary.

(** * Specified behaviour *)

(** C1.  [SearchEngagements] called with an explicit cursor, against a
    remote side that answers every request: the request is made twice, once
    before the loop (its response is dropped) and once in the loop, so the
    log holds two exchanges where [ListEngagements] and [GetOwners], called
    the same way, make one. *)
Theorem SearchEngagements_explicit_cursor_two_requests :
  let service := Scripted.service 100 in
  let st := Scripted.start 100 Scripted.threePages in
  let config := Scripted.searchConfig (Some "c0") in
  let run := SearchEngagements service 1 "calls" (Some config) st in
  request <$> exchangesSince st (stateOf run) =
    [searchRequest "calls" config; searchRequest "calls" config] ∧
  run = Returned ((Some [Scripted.engagement "3"], None), Some config)
          (stateOf run) ∧
  length (exchangesSince st
            (stateOf (ListEngagements service 1
                        (Some (Scripted.listConfig (Some "c0"))) st))) = 1 ∧
  length (exchangesSince st
            (stateOf (GetOwners service 1
                        (Some (Scripted.ownersConfig (Some "c0"))) st))) = 1.
Proof. split_and!; by vm_compute. Qed.

(** C2.  [SearchEngagements] called without a cursor, against a remote
    side that yields the pages [1, 2], [3] and [4]: the first page is the
    response to the request made before the loop, which is dropped, so the
    call returns the records 3 and 4 and not the concatenation of the pages
    that were yielded.  When the remote side answers the repeated request
    with the same page again, that page was yielded twice and is returned
    once.  [ListEngagements] and [GetOwners], against the same three pages,
    return all four records. *)
Theorem SearchEngagements_without_cursor_loses_first_page :
  let service := Scripted.service 100 in
  let config := Scripted.searchConfig None in
  let st := Scripted.start 100 Scripted.threePages in
  let run := SearchEngagements service 5 "calls" (Some config) st in
  let st' := Scripted.start 100 Scripted.searchPages in
  let run' := SearchEngagements service 5 "calls" (Some config) st' in
  (concat (engagementsOf <$> exchangesSince st (stateOf run)) =
     Scripted.engagement <$> ["1"; "2"; "3"; "4"] ∧
   nextCursor <$> exchangesSince st (stateOf run) = ["c1"; "c2"; ""] ∧
   run = Returned ((Some (Scripted.engagement <$> ["3"; "4"]), None),
                   Some (Scripted.searchConfig (Some "c2"))) (stateOf run)) ∧
  (engagementsOf <$> exchangesSince st' (stateOf run') =
     [Scripted.engagement <$> ["1"; "2"]; Scripted.engagement <$> ["1"; "2"];
      Scripted.engagement <$> ["3"]] ∧
   request <$> exchangesSince st' (stateOf run') =
     [searchRequest "calls" config; searchRequest "calls" config;
      searchRequest "calls" (Scripted.searchConfig (Some "c1"))] ∧
   run' = Returned ((Some (Scripted.engagement <$> ["1"; "2"; "3"]), None),
                    Some (Scripted.searchConfig (Some "c1"))) (stateOf run')) ∧
  (let list := ListEngagements service 5 (Some (Scripted.listConfig None)) st in
   list = Returned (Some (Scripted.engagement <$> ["1"; "2"; "3"; "4"]), None)
            (stateOf list)) ∧
  (let owners := GetOwners service 5 (Some (Scripted.ownersConfig None)) st in
   owners = Returned (Some (Scripted.owner <$> ["1"; "2"; "3"; "4"]), None)
              (stateOf owners)).
Proof. split_and!; by vm_compute. Qed.

Section Behaviour.
Context {service : Service}.
Implicit Types st : State service.

(** X15.  Called without an explicit cursor, [ListEngagements] and
    [GetOwners] follow the cursors: the first request carries no cursor,
    every further request carries the next cursor of the response before
    it, the exchanges end on the first response without a next cursor (no
    paging object, or an empty cursor) and only there, and what is
    returned is the concatenation of the records of the pages in the
    order of the responses.  The loop runs out of iterations only if every
    response so far carried a next cursor. *)
Theorem list_without_cursor_follows_pages fuel
    (engagementsConfig : ListEngagementsConfig.t)
    (ownersConfig : option GetOwnersConfig.t) st :
  ListEngagementsConfig.After engagementsConfig = None →
  ownersConfig ≫= GetOwnersConfig.After = None →
  (∃ xs ending,
     let run := ListEngagements service fuel (Some engagementsConfig) st in
     exchangesSince st (stateOf run) = xs ∧
     CursorChain (ListEngagements_request engagementsConfig) "" xs ending ∧
     run = listOutcome (concat (engagementsOf <$> xs)) ending (stateOf run) ∧
     (ending = Unfinished →
        length xs = fuel ∧
        Forall (λ x, failed x = None ∧ nextCursor x ≠ "") xs) ∧
     (∀ i x, xs !! i = Some x → failed x = None →
        (nextCursor x = "" ↔ S i = length xs ∧ ending = Stopped)) ∧
     (∀ i x y, xs !! i = Some x → xs !! S i = Some y →
        request y = ListEngagements_request engagementsConfig (nextCursor x)))
  ∧
  (∃ xs ending,
     let run := GetOwners service fuel ownersConfig st in
     exchangesSince st (stateOf run) = xs ∧
     CursorChain (GetOwners_request ownersConfig) "" xs ending ∧
     run = listOutcome (concat (ownersOf <$> xs)) ending (stateOf run) ∧
     (ending = Unfinished →
        length xs = fuel ∧
        Forall (λ x, failed x = None ∧ nextCursor x ≠ "") xs) ∧
     (∀ i x, xs !! i = Some x → failed x = None →
        (nextCursor x = "" ↔ S i = length xs ∧ ending = Stopped)) ∧
     (∀ i x y, xs !! i = Some x → xs !! S i = Some y →
        request y = GetOwners_request ownersConfig (nextCursor x))).
Proof.
  intros Hengagements Howners. split.
  - destruct (ListEngagements_pages fuel engagementsConfig st Hengagements)
      as (xs & ending & Hxs & Hchain & Hrun & Hlen).
    exists xs, ending. cbn zeta in *. split_and!; try done.
    + intros ->. split; [by apply Hlen|].
      by eapply CursorChain_unfinished.
    + intros i x Hx Hok.
      destruct (CursorChain_positions _ _ _ _ Hchain i x Hx)
        as (_ & H2 & _ & H4 & _).
      split; [by apply H2|]. intros [? ?]. by apply H4.
    + intros i x y Hx Hy.
      destruct (CursorChain_positions _ _ _ _ Hchain i x Hx)
        as (_ & _ & _ & _ & H5). by apply H5.
  - destruct (GetOwners_pages fuel ownersConfig st Howners)
      as (xs & ending & Hxs & Hchain & Hrun & Hlen).
    exists xs, ending. cbn zeta in *. split_and!; try done.
    + intros ->. split; [by apply Hlen|].
      by eapply CursorChain_unfinished.
    + intros i x Hx Hok.
      destruct (CursorChain_positions _ _ _ _ Hchain i x Hx)
        as (_ & H2 & _ & H4 & _).
      split; [by apply H2|]. intros [? ?]. by apply H4.
    + intros i x y Hx Hy.
      destruct (CursorChain_positions _ _ _ _ Hchain i x Hx)
        as (_ & _ & _ & _ & H5). by apply H5.
Qed.

(** C3.  [BatchArchiveEngagements] and [BatchGetAssociations] cut their
    input into contiguous chunks of at most 100 and 10000 identifiers:
    the chunks are not empty, no larger than the maximum, and their
    concatenation is the input; one request is made per chunk, in the
    order of the input, up to the first one that fails; the associations
    returned are those of the responses in the order of the chunks.  With
    250 identifiers and no failure, the archive requests hold 100, 100 and
    50 of them. *)
Theorem batches_are_contiguous_chunks fuel engagementType engagementIds
    (config : BatchGetAssociationsConfig.t) st :
  let ids := BatchGetAssociationsConfig.Ids config in
  (maxItemsPerBatch = 100 ∧
   concat (chunks maxItemsPerBatch engagementIds) = engagementIds ∧
   Forall (λ chunk, 0 < length chunk ≤ maxItemsPerBatch)
     (chunks maxItemsPerBatch engagementIds) ∧
   concat (chunks maxBatchSize ids) = ids ∧
   Forall (λ chunk, 0 < length chunk ≤ maxBatchSize)
     (chunks maxBatchSize ids)) ∧
  (∃ xs ending,
     let run := BatchArchiveEngagements service fuel engagementType
                  engagementIds st in
     exchangesSince st (stateOf run) = xs ∧
     BatchRun false
       (archiveRequest engagementType <$>
          chunks maxItemsPerBatch engagementIds) xs ending ∧
     inputsOf ∘ request <$> xs =
       take (length xs) (chunks maxItemsPerBatch engagementIds) ∧
     (ending = Stopped →
        inputsOf ∘ request <$> xs = chunks maxItemsPerBatch engagementIds) ∧
     (length (chunks maxItemsPerBatch engagementIds) ≤ fuel →
        ending ≠ Unfinished) ∧
     (length engagementIds = 250 → ending = Stopped →
        length ∘ inputsOf ∘ request <$> xs = [100; 100; 50]) ∧
     run = match ending with
           | Stopped => Returned None (stateOf run)
           | Failed e => Returned (Some e) (stateOf run)
           | Unfinished => OutOfFuel (stateOf run)
           end) ∧
  (ids ≠ [] →
   ∃ xs ending,
     let run := BatchGetAssociations service fuel (Some config) st in
     exchangesSince st (stateOf run) = xs ∧
     BatchRun false
       (associationsRequest config <$> chunks maxBatchSize ids) xs ending ∧
     inputsOf ∘ request <$> xs = take (length xs) (chunks maxBatchSize ids) ∧
     (ending = Stopped →
        inputsOf ∘ request <$> xs = chunks maxBatchSize ids) ∧
     (length (chunks maxBatchSize ids) ≤ fuel → ending ≠ Unfinished) ∧
     run = match ending with
           | Stopped =>
               Returned
                 (Some {| AssociationsV4Set.Results :=
                            concat (associationsOf <$> xs) |}, None)
                 (stateOf run)
           | Failed e => Returned (None, Some e) (stateOf run)
           | Unfinished => OutOfFuel (stateOf run)
           end).
Proof.
  intros ids. split_and!.
  - done.
  - apply chunks_concat, maxItemsPerBatch_pos.
  - apply chunks_sizes, maxItemsPerBatch_pos.
  - apply chunks_concat, maxBatchSize_pos.
  - apply chunks_sizes, maxBatchSize_pos.
  - destruct (BatchArchiveEngagements_run fuel engagementType engagementIds
                st) as (xs & ending & Hxs & Hrun & Hlen & Hres).
    destruct (BatchRun_inputs (archiveRequest engagementType) _ _ _
                ltac:(done) Hrun) as (Htake & Hall & Hless).
    exists xs, ending. cbn zeta in *. split_and!; try done.
    + intros Hfuel ->. specialize (Hlen eq_refl). specialize (Hless eq_refl).
      lia.
    + intros H250 Hstopped. rewrite (list_fmap_compose (inputsOf ∘ request) length).
      rewrite Hall by done. rewrite chunks_lengths, H250. by vm_compute.
  - intros Hids.
    destruct (BatchGetAssociations_run fuel config st Hids)
      as (xs & ending & Hxs & Hrun & Hlen & Hres).
    destruct (BatchRun_inputs (associationsRequest config) _ _ _
                ltac:(done) Hrun) as (Htake & Hall & Hless).
    exists xs, ending. cbn zeta in *. split_and!; try done.
    intros Hfuel ->. specialize (Hlen eq_refl). specialize (Hless eq_refl).
    unfold ids in *. lia.
Qed.


(** C5.  With no source identifier [BatchGetAssociations] returns at once:
    no error, no request, and the nil set as the empty result. *)
Theorem BatchGetAssociations_no_ids fuel fromObjectType toObjectType st :
  let config :=
    {| BatchGetAssociationsConfig.FromObjectType := fromObjectType;
       BatchGetAssociationsConfig.ToObjectType := toObjectType;
       BatchGetAssociationsConfig.Ids := [] |} in
  let run := BatchGetAssociations service fuel (Some config) st in
  run = Returned (None, None) st ∧ exchangesSince st (stateOf run) = [].
Proof. split; [done|apply exchangesSince_refl]. Qed.

(** C6.  [UpdateEngagement] makes one request whose body holds the
    supplied properties and nothing else: a key that was not supplied has
    no member in the serialized object, and no member is null. *)
Theorem UpdateEngagement_sends_supplied_properties
    (config : UpdateEngagementConfig.t) st :
  let supplied : gmap string string :=
    default ∅ (UpdateEngagementConfig.Properties config) in
  ∃ x,
    exchangesSince st (stateOf (UpdateEngagement service (Some config) st))
      = [x] ∧
    BodyModel (request x) = PropertiesBody supplied ∧
    marshal (BodyModel (request x)) =
      Some (JObject {[ "properties" := JObject (JString <$> supplied) ]}) ∧
    (∀ key, sentProperty (BodyModel (request x)) "properties" key =
            JString <$> supplied !! key) ∧
    (∀ key, sentProperty (BodyModel (request x)) "properties" key ≠
            Some JNull) ∧
    (∀ key, supplied !! key = None →
            sentProperty (BodyModel (request x)) "properties" key = None).
Proof.
  intros supplied. unfold UpdateEngagement.
  set (requestConfig := Build_RequestConfig _ _ _).
  pose proof (call_log KEngagement requestConfig Engagement.zero st) as Hlog.
  destruct (call _ _ _ _ _) as [st1 out] eqn:Hcall. cbn [fst snd] in Hlog.
  assert (BodyModel requestConfig = PropertiesBody supplied) as Hbody.
  { subst requestConfig supplied. cbn.
    destruct (UpdateEngagementConfig.Properties config); cbn; [|done].
    by rewrite copyProperties_id. }
  assert (∀ key, sentProperty (BodyModel requestConfig) "properties" key =
                 JString <$> supplied !! key) as Hsent.
  { intros key. rewrite Hbody. unfold sentProperty. cbn.
    rewrite lookup_singleton_eq. by rewrite lookup_fmap. }
  eexists. split_and!.
  - destruct (err out); cbn [stateOf];
      by apply exchangesSince_app.
  - done.
  - cbn [request]. by rewrite Hbody.
  - done.
  - intros key. cbn [request]. rewrite Hsent. by destruct (supplied !! key).
  - intros key Hkey. cbn [request]. by rewrite Hsent, Hkey.
Qed.

(** C7.  When a request of [ListEngagements], [GetOwners] or
    [SearchEngagements] comes back with a transport error, that exchange is
    the last one and the operation returns the error with a nil result: the
    records of the pages read before it are not returned. *)
Theorem list_error_returns_no_partial_results fuel :
  (∀ config st i x e,
     let run := ListEngagements service fuel config st in
     exchangesSince st (stateOf run) !! i = Some x →
     failed x = Some e →
     run = Returned (None, Some e) (stateOf run) ∧
     length (exchangesSince st (stateOf run)) = S i) ∧
  (∀ config st i x e,
     let run := GetOwners service fuel config st in
     exchangesSince st (stateOf run) !! i = Some x →
     failed x = Some e →
     run = Returned (None, Some e) (stateOf run) ∧
     length (exchangesSince st (stateOf run)) = S i) ∧
  (∀ objectType config st i x e,
     let run := SearchEngagements service fuel objectType config st in
     exchangesSince st (stateOf run) !! i = Some x →
     failed x = Some e →
     (∃ config', run = Returned ((None, Some e), config') (stateOf run)) ∧
     length (exchangesSince st (stateOf run)) = S i).
Proof.
  split_and!.
  - intros config st i x e. apply ListEngagements_failure.
  - intros config st i x e. apply GetOwners_failure.
  - intros objectType config st i x e. apply SearchEngagements_failure.
Qed.

(** C8.  A chunk whose request comes back with a transport error ends a
    batch operation on the spot: that exchange is the last one, and the
    operation returns the error and nothing else.  For a batch create or
    update this holds when the response is not a 207; a batch archive or
    association read stops on every error. *)
Theorem batch_error_aborts fuel :
  (∀ engagementType engagementIds st i x e,
     let run := BatchArchiveEngagements service fuel engagementType
                  engagementIds st in
     exchangesSince st (stateOf run) !! i = Some x →
     failed x = Some e →
     run = Returned (Some e) (stateOf run) ∧
     length (exchangesSince st (stateOf run)) = S i) ∧
  (∀ config st i x e,
     let run := BatchGetAssociations service fuel config st in
     exchangesSince st (stateOf run) !! i = Some x →
     failed x = Some e →
     run = Returned (None, Some e) (stateOf run) ∧
     length (exchangesSince st (stateOf run)) = S i) ∧
  (∀ config st run i x e,
     run = BatchCreateEngagements service config st ∨
     run = BatchUpdateEngagements service config st →
     exchangesSince st (stateOf run) !! i = Some x →
     multiStatus x = false →
     failed x = Some e →
     run = Returned (None, Some e) (stateOf run) ∧
     length (exchangesSince st (stateOf run)) = S i).
Proof.
  split_and!.
  - intros engagementType engagementIds st i x e.
    apply BatchArchiveEngagements_failure.
  - intros config st i x e. apply BatchGetAssociations_failure.
  - intros config st run i x e [-> | ->];
      apply batchEngagements_failure.
Qed.

(** C9.  [SearchEngagements] called without a cursor writes into the
    caller's configuration: when the call returns, the configuration is
    the one passed in with [After] set to the last cursor that was
    followed, and nothing else changed.  Every request after a response
    with a next cursor carries that cursor in its body; once a second
    request was made in the loop, [After] is no longer nil. *)
Theorem SearchEngagements_overwrites_After fuel objectType
    (config : SearchObjectsConfig.t) st result config' st' :
  SearchObjectsConfig.After config = None →
  SearchEngagements service fuel objectType (Some config) st =
    Returned (result, config') st' →
  ∃ x0 xs final,
    exchangesSince st st' = x0 :: xs ∧
    config' = Some final ∧
    SearchObjectsConfig.Criteria final = SearchObjectsConfig.Criteria config ∧
    final = storeCursor (lastFollowed "" xs) config ∧
    (∀ i x y, xs !! i = Some x → xs !! S i = Some y →
       nextCursor x ≠ "" ∧
       BodyModel (request y) =
         SearchBody {| SearchObjectsConfig.After := Some (nextCursor x);
                       SearchObjectsConfig.Criteria :=
                         SearchObjectsConfig.Criteria config |}) ∧
    (length xs ≤ 1 → final = config) ∧
    (1 < length xs →
       ∃ x, xs !! (length xs - 2) = Some x ∧ nextCursor x ≠ "" ∧
            SearchObjectsConfig.After final = Some (nextCursor x)).
Proof.
  intros Hafter Hrun.
  destruct (SearchEngagements_pages fuel objectType config st Hafter)
    as (x0 & xs & ending & Hxs & Hreq & Hcases).
  cbn zeta in *. rewrite Hrun in *. cbn [stateOf] in *.
  exists x0, xs.
  destruct (failed x0) as [e|].
  { destruct Hcases as [-> [= -> ->]].
    exists config. split_and!; try done. cbn. lia. }
  destruct Hcases as (Hchain & _ & Hres).
  exists (storeCursor (lastFollowed "" xs) config).
  destruct (lastFollowed_chain _ _ _ _ Hchain) as [Hshort Hlong].
  split_and!; try done.
  - by destruct ending; simplify_eq.
  - apply storeCursor_Criteria.
  - intros i x y Hx Hy.
    destruct (CursorChain_positions _ _ _ _ Hchain i x Hx)
      as (H1 & _ & _ & _ & H5).
    destruct H1 as [_ Hnext]; [by eapply lookup_lt_Some|].
    split; [done|]. rewrite (H5 y Hy).
    unfold SearchEngagements_request, searchRequest, storeCursor. cbn.
    by rewrite decide_False.
  - intros Hlen. rewrite Hshort by done. done.
  - intros Hlen. destruct (Hlong Hlen) as (x & Hx & Hnext & ->).
    exists x. split_and!; try done.
    unfold storeCursor. by rewrite decide_False.
Qed.

(** C10.  [ListEngagements] reads [config.Type] before it tests
    [config != nil]: it faults on a nil configuration, before any request,
    and it faults on nothing else, so the nil branch of the guard is never
    taken.  [SearchEngagements] answers a nil configuration with the error
    "Config is nil", without a request. *)
Theorem ListEngagements_requires_config fuel objectType st :
  ListEngagements service fuel None st = Panicked nilDereference st ∧
  (∀ config reason st',
     ListEngagements service fuel config st = Panicked reason st' ↔
     config = None ∧ reason = nilDereference ∧ st' = st) ∧
  SearchEngagements service fuel objectType None st =
    Returned ((None, Some (ErrorMessage "Config is nil")), None) st ∧
  exchangesSince st
    (stateOf (SearchEngagements service fuel objectType None st)) = [].
Proof.
  split_and!; [done| |done|apply exchangesSince_refl].
  intros [config|] reason st'; cbn.
  - split; [|by intros [? _]].
    intros H. by apply ListEngagements_loop_no_panic in H.
  - split; [by intros [= <- <-]|by intros (_ & -> & ->)].
Qed.

End Behaviour.

(** * Further properties of the code *)

Section Queries.

Lemma ListEngagements_values_lookup (config : ListEngagementsConfig.t) :
  let values := ListEngagements_values config ∅ in
  values !! "limit" =
    (λ limit, [pretty limit]) <$> ListEngagementsConfig.Limit config ∧
  values !! "properties" =
    match ListEngagementsConfig.Properties config with
    | Some (p :: properties) => Some [String.concat "," (p :: properties)]
    | _ => None
    end ∧
  values !! "associations" =
    match ListEngagementsConfig.Associations config with
    | Some (a :: associations) => Some [String.concat "," (a :: associations)]
    | _ => None
    end ∧
  values !! "archived" =
    (λ archived : bool, [if archived then "true" else "false"]) <$>
      ListEngagementsConfig.Archived config ∧
  ∀ key, key ∉ ListEngagements_keys → values !! key = None.
Proof.
  unfold ListEngagements_values, Values_Set, ListEngagements_keys.
  destruct config as [type limit after properties associations archived].
  cbn [ListEngagementsConfig.Limit ListEngagementsConfig.Properties
       ListEngagementsConfig.Associations ListEngagementsConfig.Archived].
  destruct limit as [limit|], properties as [[|p properties]|],
    associations as [[|a associations]|], archived as [archived|];
    cbn [length app]; repeat case_decide; try (cbn in *; lia);
    (split_and!;
     [try done; simplify_map_eq; done ..
     |intros key Hkey; repeat (apply not_elem_of_cons in Hkey as [? Hkey]);
      by simplify_map_eq]).
Qed.

Lemma GetOwners_values_lookup (config : GetOwnersConfig.t) :
  let values := GetOwners_values config ∅ in
  values !! "limit" = (λ limit, [pretty limit]) <$> GetOwnersConfig.Limit config ∧
  values !! "email" = (λ email, [email]) <$> GetOwnersConfig.Email config ∧
  ∀ key, key ∉ GetOwners_keys → values !! key = None.
Proof.
  unfold GetOwners_values, Values_Set, GetOwners_keys.
  destruct config as [limit after email].
  cbn [GetOwnersConfig.Limit GetOwnersConfig.Email].
  destruct limit as [limit|], email as [email|];
    (split_and!;
     [try done; simplify_map_eq; done ..
     |intros key Hkey; repeat (apply not_elem_of_cons in Hkey as [? Hkey]);
      by simplify_map_eq]).
Qed.

(** The query of a list request: the parameters of the configuration and,
    for a cursor that is not empty, [after]. *)
Lemma queryOf_listRequest endpoint values cursor key :
  queryOf key (listRequest endpoint values cursor) =
  if decide (key = "after" ∧ cursor ≠ "") then Some [cursor]
  else values !! key.
Proof.
  unfold queryOf, listRequest, withAfter, Values_Set. cbn.
  destruct (decide (cursor ≠ "")) as [Hcursor|Hcursor].
  - destruct (decide (key = "after")) as [->|Hkey].
    + rewrite decide_True by done. by rewrite lookup_insert_eq.
    + rewrite decide_False by (by intros [? _]). by rewrite lookup_insert_ne.
  - by rewrite decide_False by (by intros [_ ?]).
Qed.
End Queries.

Section MoreChains.
Context (requestFor : string → RequestConfig).

(** Every request of a chain is a request for some cursor. *)
Lemma CursorChain_requests cursor xs ending :
  CursorChain requestFor cursor xs ending →
  Forall (λ x, ∃ cursor', request x = requestFor cursor') xs.
Proof.
  induction 1; repeat constructor; eauto.
Qed.
End MoreChains.

Section ListRequests.
Context {service : Service}.
Implicit Types st : State service.

Lemma ListEngagements_requests fuel (config : ListEngagementsConfig.t) st :
  Forall (λ x, ∃ cursor, request x = ListEngagements_request config cursor)
    (exchangesSince st
       (stateOf (ListEngagements service fuel (Some config) st))).
Proof.
  destruct (ListEngagementsConfig.After config) as [cursor|] eqn:Hafter.
  - destruct fuel as [|fuel].
    + unfold ListEngagements. rewrite Hafter.
      cbn [ListEngagements_loop stateOf]. by rewrite exchangesSince_refl.
    + destruct (ListEngagements_single fuel config cursor st Hafter)
        as (x & Hxs & Hreq & _). cbn zeta in *. rewrite Hxs.
      repeat constructor. eauto.
  - destruct (ListEngagements_pages fuel config st Hafter)
      as (xs & ending & Hxs & Hchain & _). cbn zeta in *. rewrite Hxs.
    by eapply CursorChain_requests.
Qed.

Lemma GetOwners_requests fuel (config : option GetOwnersConfig.t) st :
  Forall (λ x, ∃ cursor, request x = GetOwners_request config cursor)
    (exchangesSince st (stateOf (GetOwners service fuel config st))).
Proof.
  destruct (config ≫= GetOwnersConfig.After) as [cursor|] eqn:Hafter.
  - destruct config as [config|]; [cbn in Hafter|done].
    destruct fuel as [|fuel].
    + unfold GetOwners. rewrite Hafter.
      cbn [GetOwners_loop stateOf]. by rewrite exchangesSince_refl.
    + destruct (GetOwners_single fuel config cursor st Hafter)
        as (x & Hxs & Hreq & _). cbn zeta in *. rewrite Hxs.
      repeat constructor. eauto.
  - destruct (GetOwners_pages fuel config st Hafter)
      as (xs & ending & Hxs & Hchain & _). cbn zeta in *. rewrite Hxs.
    by eapply CursorChain_requests.
Qed.
End ListRequests.

Section ExtraLists.
Context {service : Service}.
Implicit Types st : State service.

(** X1.  With an explicit cursor, [ListEngagements] and [GetOwners] make
    exactly one request.  Its query carries [after] with that cursor,
    unless the cursor is the empty string: then the request has no [after]
    parameter, and still only this one page is fetched.  The records of the
    response are returned, or its error. *)
Theorem explicit_cursor_fetches_one_page fuel
    (engagementsConfig : ListEngagementsConfig.t)
    (ownersConfig : GetOwnersConfig.t) cursor cursor' st :
  ListEngagementsConfig.After engagementsConfig = Some cursor →
  GetOwnersConfig.After ownersConfig = Some cursor' →
  (∃ x,
     let run := ListEngagements service (S fuel) (Some engagementsConfig) st in
     exchangesSince st (stateOf run) = [x] ∧
     request x = ListEngagements_request engagementsConfig cursor ∧
     queryOf "after" (request x) =
       (if decide (cursor = "") then None else Some [cursor]) ∧
     run = match failed x with
           | Some e => Returned (None, Some e) (stateOf run)
           | None => Returned (Some (engagementsOf x), None) (stateOf run)
           end) ∧
  (∃ x,
     let run := GetOwners service (S fuel) (Some ownersConfig) st in
     exchangesSince st (stateOf run) = [x] ∧
     request x = GetOwners_request (Some ownersConfig) cursor' ∧
     queryOf "after" (request x) =
       (if decide (cursor' = "") then None else Some [cursor']) ∧
     run = match failed x with
           | Some e => Returned (None, Some e) (stateOf run)
           | None => Returned (Some (ownersOf x), None) (stateOf run)
           end).
Proof.
  intros Hengagements Howners. split.
  - destruct (ListEngagements_single fuel engagementsConfig cursor st
                Hengagements) as (x & Hxs & Hreq & Hrun).
    exists x. cbn zeta in *. split_and!; try done.
    rewrite Hreq. unfold ListEngagements_request.
    rewrite queryOf_listRequest.
    destruct (ListEngagements_values_lookup engagementsConfig)
      as (_ & _ & _ & _ & Hother).
    destruct (decide (cursor = "")) as [->|Hcursor].
    + rewrite decide_False by (by intros [_ ?]). apply Hother.
      intros Hin. repeat (apply elem_of_cons in Hin as [?|Hin]; [done|]).
      by apply elem_of_nil in Hin.
    + by rewrite decide_True.
  - destruct (GetOwners_single fuel ownersConfig cursor' st Howners)
      as (x & Hxs & Hreq & Hrun).
    exists x. cbn zeta in *. split_and!; try done.
    rewrite Hreq. unfold GetOwners_request.
    rewrite queryOf_listRequest.
    destruct (GetOwners_values_lookup ownersConfig) as (_ & _ & Hother).
    destruct (decide (cursor' = "")) as [->|Hcursor].
    + rewrite decide_False by (by intros [_ ?]). apply Hother.
      intros Hin. repeat (apply elem_of_cons in Hin as [?|Hin]; [done|]).
      by apply elem_of_nil in Hin.
    + by rewrite decide_True.
Qed.

(** X2.  The query parameters that [ListEngagements] and [GetOwners]
    derive from their configuration: [limit] in decimal when a limit is
    set; [properties] and [associations] joined by commas when the list is
    not empty, an empty list being sent like no list at all; [archived] as
    [true] or [false]; [email] as given; and no other key.  [GetOwners]
    with a nil configuration sends no parameter. *)
Theorem list_query_parameters (engagementsConfig : ListEngagementsConfig.t)
    (ownersConfig : GetOwnersConfig.t) :
  let values := ListEngagements_values engagementsConfig ∅ in
  let values' := GetOwners_values ownersConfig ∅ in
  (values !! "limit" =
     (λ limit, [pretty limit]) <$>
       ListEngagementsConfig.Limit engagementsConfig ∧
   values !! "properties" =
     match ListEngagementsConfig.Properties engagementsConfig with
     | Some (p :: properties) => Some [String.concat "," (p :: properties)]
     | _ => None
     end ∧
   values !! "associations" =
     match ListEngagementsConfig.Associations engagementsConfig with
     | Some (a :: associations) => Some [String.concat "," (a :: associations)]
     | _ => None
     end ∧
   values !! "archived" =
     (λ archived : bool, [if archived then "true" else "false"]) <$>
       ListEngagementsConfig.Archived engagementsConfig ∧
   ∀ key, key ∉ ListEngagements_keys → values !! key = None) ∧
  (values' !! "limit" =
     (λ limit, [pretty limit]) <$> GetOwnersConfig.Limit ownersConfig ∧
   values' !! "email" =
     (λ email, [email]) <$> GetOwnersConfig.Email ownersConfig ∧
   ∀ key, key ∉ GetOwners_keys → values' !! key = None) ∧
  (∀ key cursor,
     queryOf key (GetOwners_request None cursor) =
     if decide (key = "after" ∧ cursor ≠ "") then Some [cursor] else None).
Proof.
  split; [|split].
  - apply ListEngagements_values_lookup.
  - apply GetOwners_values_lookup.
  - intros key cursor. unfold GetOwners_request.
    by rewrite queryOf_listRequest.
Qed.

(** X3.  Paging does not change what is asked: every request of a run of
    [ListEngagements] (of [GetOwners]) is a [GET] without body on the same
    endpoint, and its query agrees with the parameters of the
    configuration on every key but [after]. *)
Theorem list_requests_keep_parameters fuel :
  (∀ (config : ListEngagementsConfig.t) st x,
     x ∈ exchangesSince st
           (stateOf (ListEngagements service fuel (Some config) st)) →
     Method (request x) = MethodGet ∧
     BodyModel (request x) = NoBody ∧
     (∃ values,
        Url (request x) =
        urlCrm (WithQuery ("objects/" +:+ ListEngagementsConfig.Type_ config)
                  values)) ∧
     ∀ key, key ≠ "after" →
       queryOf key (request x) = ListEngagements_values config ∅ !! key) ∧
  (∀ (config : option GetOwnersConfig.t) st x,
     x ∈ exchangesSince st (stateOf (GetOwners service fuel config st)) →
     Method (request x) = MethodGet ∧
     BodyModel (request x) = NoBody ∧
     (∃ values, Url (request x) = urlCrm (WithQuery "owners" values)) ∧
     ∀ key, key ≠ "after" →
       queryOf key (request x) =
       match config with
       | Some config => GetOwners_values config ∅ !! key
       | None => None
       end).
Proof.
  split.
  - intros config st x Hx.
    pose proof (ListEngagements_requests fuel config st) as Hall.
    rewrite Forall_forall in Hall. destruct (Hall x Hx) as [cursor ->].
    split_and!; try done; [by eexists|].
    intros key Hkey. unfold ListEngagements_request.
    rewrite queryOf_listRequest. by rewrite decide_False by (by intros [? _]).
  - intros config st x Hx.
    pose proof (GetOwners_requests fuel config st) as Hall.
    rewrite Forall_forall in Hall. destruct (Hall x Hx) as [cursor ->].
    split_and!; try done; [by eexists|].
    intros key Hkey. unfold GetOwners_request.
    rewrite queryOf_listRequest. rewrite decide_False by (by intros [? _]).
    by destruct config.
Qed.
End ExtraLists.

Section ExtraSearch.
Context {service : Service}.
Implicit Types st : State service.

(** With no iteration left for the loop, [SearchEngagements] has made the
    request before the loop and nothing else. *)
Lemma SearchEngagements_no_fuel objectType (config : SearchObjectsConfig.t) st :
  ∃ x0,
    let run := SearchEngagements service 0 objectType (Some config) st in
    exchangesSince st (stateOf run) = [x0] ∧
    request x0 = searchRequest objectType config ∧
    run = match failed x0 with
          | Some e => Returned ((None, Some e), Some config) (stateOf run)
          | None => OutOfFuel (stateOf run)
          end.
Proof.
  unfold SearchEngagements. fold (searchRequest objectType config).
  pose proof (call_log KEngagementsResponse (searchRequest objectType config)
                EngagementsResponse.zero st) as Hlog.
  destruct (call _ _ _ _ _) as [st1 out]. cbn [fst snd] in Hlog.
  exists (Build_Exchange (searchRequest objectType config) _ out).
  unfold failed. cbn zeta. cbn [outcome request kind].
  destruct (err out); cbn [SearchEngagements_loop stateOf];
    split_and!; try done; by apply exchangesSince_app.
Qed.

(** X4.  [SearchEngagements] called without a cursor drops the response to
    its first request: the request is made once before the loop and once
    more, unchanged, as the first request of the loop, and what is returned
    is the concatenation of the records of the responses from the second
    one on, which follow the cursors. *)
Theorem SearchEngagements_drops_first_response fuel objectType
    (config : SearchObjectsConfig.t) st :
  SearchObjectsConfig.After config = None →
  ∃ x0 xs ending,
    let run := SearchEngagements service fuel objectType (Some config) st in
    exchangesSince st (stateOf run) = x0 :: xs ∧
    request x0 = searchRequest objectType config ∧
    (∀ x1, xs !! 0 = Some x1 → request x1 = request x0) ∧
    (failed x0 = None →
       CursorChain (SearchEngagements_request objectType config) "" xs ending ∧
       (ending = Unfinished → length xs = fuel) ∧
       ∀ records config' st',
         run = Returned ((Some records, None), config') st' →
         records = concat (engagementsOf <$> xs)) ∧
    (∀ e, failed x0 = Some e →
       xs = [] ∧
       run = Returned ((None, Some e), Some config) (stateOf run)).
Proof.
  intros Hafter.
  destruct (SearchEngagements_pages fuel objectType config st Hafter)
    as (x0 & xs & ending & Hxs & Hreq & Hcases).
  exists x0, xs, ending. cbn zeta in *.
  destruct (failed x0) as [e0|].
  - destruct Hcases as [-> Hrun]. split_and!; try done.
    intros e [= <-]. done.
  - destruct Hcases as (Hchain & Hlen & Hrun). split_and!; try done.
    + intros x1 Hx1. rewrite Hreq.
      rewrite (CursorChain_first _ _ _ _ _ Hchain Hx1). done.
    + intros _. split_and!; try done.
      intros records config' st' Hrecords. rewrite Hrecords in Hrun.
      destruct ending; by simplify_eq.
Qed.

(** X5.  [SearchEngagements] called with an explicit cursor does not write
    to the caller's configuration: whenever it returns, the configuration
    is the one that was passed in. *)
Theorem SearchEngagements_explicit_cursor_keeps_config fuel objectType
    (config : SearchObjectsConfig.t) cursor st result config' st' :
  SearchObjectsConfig.After config = Some cursor →
  SearchEngagements service fuel objectType (Some config) st =
    Returned (result, config') st' →
  config' = Some config.
Proof.
  intros Hafter Hrun. destruct fuel as [|fuel].
  - destruct (SearchEngagements_no_fuel objectType config st)
      as (x0 & _ & _ & Hcases). cbn zeta in *. rewrite Hrun in Hcases.
    destruct (failed x0); by simplify_eq.
  - destruct (SearchEngagements_twice fuel objectType config cursor st Hafter)
      as (x0 & _ & Hcases). cbn zeta in *. rewrite Hrun in Hcases.
    destruct (failed x0).
    + destruct Hcases as [_ ?]. by simplify_eq.
    + destruct Hcases as (x1 & _ & _ & ?). destruct (failed x1); by simplify_eq.
Qed.
End ExtraSearch.

Section MoreChunks.
Context {A : Type}.
Implicit Types items : list A.

Lemma chunks_length size items :
  0 < size → length (chunks size items) = (length items + size - 1) / size.
Proof.
  intros Hsize. revert items. apply (chunk_ind size); [done| |].
  - rewrite chunks_nil. cbn. symmetry. apply Nat.div_small. lia.
  - intros items Hitems IH. rewrite chunks_step by done. cbn [length].
    rewrite IH, length_drop.
    assert (0 < length items) by (destruct items; [done|cbn; lia]).
    destruct (decide (length items ≤ size)) as [Hle|Hgt].
    + replace (length items - size) with 0 by lia.
      rewrite (Nat.div_small (0 + size - 1)) by lia.
      apply (Nat.div_unique _ _ 1 (length items - 1)); lia.
    + replace (length items + size - 1)
        with (1 * size + (length items - size + size - 1)) by lia.
      rewrite Nat.div_add_l by lia. done.
Qed.

(** Every chunk but the last is full. *)
Lemma chunks_full size items i chunk :
  0 < size →
  chunks size items !! i = Some chunk →
  S i < length (chunks size items) →
  length chunk = size.
Proof.
  intros Hsize. revert items i chunk.
  refine (chunk_ind size
            (λ items, ∀ i chunk,
               chunks size items !! i = Some chunk →
               S i < length (chunks size items) → length chunk = size)
            Hsize _ _).
  { intros i chunk. by rewrite chunks_nil. }
  intros items Hitems IH i chunk. rewrite chunks_step by done.
  destruct i as [|i]; cbn [lookup list_lookup length].
  - intros [= <-] Hmore. rewrite length_take.
    destruct (decide (size ≤ length items)); [lia|].
    rewrite (drop_ge items), chunks_nil in Hmore by lia. cbn in Hmore. lia.
  - intros Hchunk Hmore. apply (IH i); [done|lia].
Qed.

(** The first chunks make up a prefix of the sequence. *)
Lemma chunks_take_concat size items k :
  0 < size →
  concat (take k (chunks size items)) = take (k * size) items.
Proof.
  intros Hsize. revert items k.
  refine (chunk_ind size
            (λ items, ∀ k,
               concat (take k (chunks size items)) = take (k * size) items)
            Hsize _ _).
  - intros k. by rewrite chunks_nil, take_nil, take_nil.
  - intros items Hitems IH [|k]; [done|].
    rewrite chunks_step by done. cbn [take concat]. rewrite IH.
    replace (S k * size) with (size + k * size) by lia.
    by rewrite take_take_drop.
Qed.
End MoreChunks.

Section ExtraBatches.
Context {service : Service}.
Implicit Types st : State service.

Lemma BatchGetAssociations_exchanges fuel
    (config : BatchGetAssociationsConfig.t) st :
  ∃ xs ending,
    let run := BatchGetAssociations service fuel (Some config) st in
    exchangesSince st (stateOf run) = xs ∧
    BatchRun false
      (associationsRequest config <$>
         chunks maxBatchSize (BatchGetAssociationsConfig.Ids config))
      xs ending ∧
    (ending = Unfinished → length xs = fuel).
Proof.
  destruct (decide (BatchGetAssociationsConfig.Ids config = [])) as [Hids|Hids].
  - exists [], Stopped. unfold BatchGetAssociations. rewrite Hids.
    cbn [length stateOf]. rewrite decide_True by done. cbn [stateOf].
    rewrite exchangesSince_refl, chunks_nil. split_and!; try done.
    constructor.
  - destruct (BatchGetAssociations_run fuel config st Hids)
      as (xs & ending & Hxs & Hrun & Hlen & _).
    by exists xs, ending.
Qed.

(** X7.  How many requests a batch makes: [BatchArchiveEngagements] and
    [BatchGetAssociations] never make more than one request per 100,
    respectively 10000, identifiers (rounded up), and make exactly that
    many when they return without error; an archive of no identifier makes
    no request and returns no error. *)
Theorem batch_request_count fuel engagementType engagementIds
    (config : BatchGetAssociationsConfig.t) st :
  let archive := BatchArchiveEngagements service fuel engagementType
                   engagementIds st in
  let read := BatchGetAssociations service fuel (Some config) st in
  let ids := BatchGetAssociationsConfig.Ids config in
  (length (exchangesSince st (stateOf archive)) ≤
     (length engagementIds + maxItemsPerBatch - 1) / maxItemsPerBatch ∧
   (∀ st', archive = Returned None st' →
      length (exchangesSince st (stateOf archive)) =
      (length engagementIds + maxItemsPerBatch - 1) / maxItemsPerBatch) ∧
   (engagementIds = [] → archive = Returned None st)) ∧
  (length (exchangesSince st (stateOf read)) ≤
     (length ids + maxBatchSize - 1) / maxBatchSize ∧
   (∀ set st', read = Returned (Some set, None) st' →
      length (exchangesSince st (stateOf read)) =
      (length ids + maxBatchSize - 1) / maxBatchSize)).
Proof.
  intros archive read ids. split.
  - destruct (BatchArchiveEngagements_run fuel engagementType engagementIds st)
      as (xs & ending & Hxs & Hrun & _ & Hres). cbn zeta in *.
    fold archive in Hxs, Hres. rewrite Hxs.
    destruct (BatchRun_positions _ _ _ _ Hrun) as (_ & Hle & Hall & _).
    rewrite length_fmap, chunks_length in Hle, Hall
      by apply maxItemsPerBatch_pos.
    split_and!; [done| |].
    + intros st' Harchive. rewrite Harchive in Hres.
      apply Hall. destruct ending; by simplify_eq.
    + intros ->. subst archive. unfold BatchArchiveEngagements. by destruct fuel.
  - destruct (decide (ids = [])) as [Hids|Hids].
    + assert (read = Returned (None, None) st) as Hread.
      { subst read ids. unfold BatchGetAssociations. rewrite Hids.
        cbn [length]. by rewrite decide_True. }
      rewrite Hread. cbn [stateOf]. rewrite exchangesSince_refl.
      split; [cbn; lia|done].
    + destruct (BatchGetAssociations_run fuel config st Hids)
        as (xs & ending & Hxs & Hrun & _ & Hres). cbn zeta in *.
      fold read in Hxs, Hres. rewrite Hxs.
      destruct (BatchRun_positions _ _ _ _ Hrun) as (_ & Hle & Hall & _).
      rewrite length_fmap, chunks_length in Hle, Hall
        by apply maxBatchSize_pos.
      split; [done|].
      intros set st' Hread. rewrite Hread in Hres.
      apply Hall. destruct ending; by simplify_eq.
Qed.
End ExtraBatches.

Section ExtraChunks.
Context {service : Service}.
Implicit Types st : State service.

Lemma BatchArchiveEngagements_inputs fuel engagementType engagementIds st :
  let xs := exchangesSince st
              (stateOf (BatchArchiveEngagements service fuel engagementType
                          engagementIds st)) in
  inputsOf ∘ request <$> xs =
    take (length xs) (chunks maxItemsPerBatch engagementIds).
Proof.
  destruct (BatchArchiveEngagements_run fuel engagementType engagementIds st)
    as (xs & ending & Hxs & Hrun & _). cbn zeta in *. rewrite Hxs.
  by destruct (BatchRun_inputs (archiveRequest engagementType) _ _ _
                 ltac:(done) Hrun) as (? & _).
Qed.

Lemma BatchGetAssociations_inputs fuel (config : BatchGetAssociationsConfig.t)
    st :
  let xs := exchangesSince st
              (stateOf (BatchGetAssociations service fuel (Some config) st)) in
  inputsOf ∘ request <$> xs =
    take (length xs)
      (chunks maxBatchSize (BatchGetAssociationsConfig.Ids config)).
Proof.
  destruct (BatchGetAssociations_exchanges fuel config st)
    as (xs & ending & Hxs & Hrun & _). cbn zeta in *. rewrite Hxs.
  by destruct (BatchRun_inputs (associationsRequest config) _ _ _
                 ltac:(done) Hrun) as (? & _).
Qed.

Lemma full_request (xs : list Exchange) (planned : list (list string)) size
    items i x :
  0 < size →
  planned = chunks size items →
  inputsOf ∘ request <$> xs = take (length xs) planned →
  xs !! i = Some x →
  S i < length xs →
  length (inputsOf (request x)) = size.
Proof.
  intros Hsize -> Hinputs Hx Hmore.
  assert (length xs ≤ length (chunks size items)) as Hle.
  { apply (f_equal length) in Hinputs.
    rewrite length_fmap, length_take in Hinputs. lia. }
  apply (chunks_full size items i); [done| |lia].
  assert ((inputsOf ∘ request <$> xs) !! i = Some (inputsOf (request x)))
    as Hi by (by rewrite list_lookup_fmap, Hx).
  rewrite Hinputs, lookup_take_lt in Hi by lia. done.
Qed.

(** X8.  Only the last request of a batch is short: every request of
    [BatchArchiveEngagements] (of [BatchGetAssociations]) that is followed
    by another one carries exactly 100 (10000) identifiers. *)
Theorem batch_requests_are_full fuel :
  (∀ engagementType engagementIds st i x,
     let xs := exchangesSince st
                 (stateOf (BatchArchiveEngagements service fuel engagementType
                             engagementIds st)) in
     xs !! i = Some x → S i < length xs →
     length (inputsOf (request x)) = maxItemsPerBatch) ∧
  (∀ (config : BatchGetAssociationsConfig.t) st i x,
     let xs := exchangesSince st
                 (stateOf (BatchGetAssociations service fuel (Some config)
                             st)) in
     xs !! i = Some x → S i < length xs →
     length (inputsOf (request x)) = maxBatchSize).
Proof.
  split.
  - intros engagementType engagementIds st i x xs Hx Hmore.
    eapply full_request; [apply maxItemsPerBatch_pos|done| |done..].
    apply BatchArchiveEngagements_inputs.
  - intros config st i x xs Hx Hmore.
    eapply full_request; [apply maxBatchSize_pos|done| |done..].
    apply BatchGetAssociations_inputs.
Qed.

(** X9.  What a batch has submitted is a prefix of its input: after [k]
    requests of [BatchArchiveEngagements] (of [BatchGetAssociations]) the
    identifiers sent are the first [100 k] ([10000 k]) of the input, in
    order and once each, whether the run went through or stopped on an
    error; the rest was never sent. *)
Theorem batch_submits_a_prefix fuel :
  (∀ engagementType engagementIds st,
     let xs := exchangesSince st
                 (stateOf (BatchArchiveEngagements service fuel engagementType
                             engagementIds st)) in
     concat (inputsOf ∘ request <$> xs) =
     take (length xs * maxItemsPerBatch) engagementIds) ∧
  (∀ (config : BatchGetAssociationsConfig.t) st,
     let xs := exchangesSince st
                 (stateOf (BatchGetAssociations service fuel (Some config)
                             st)) in
     concat (inputsOf ∘ request <$> xs) =
     take (length xs * maxBatchSize) (BatchGetAssociationsConfig.Ids config)).
Proof.
  split.
  - intros engagementType engagementIds st xs. subst xs.
    rewrite BatchArchiveEngagements_inputs.
    apply chunks_take_concat, maxItemsPerBatch_pos.
  - intros config st xs. subst xs.
    rewrite BatchGetAssociations_inputs.
    apply chunks_take_concat, maxBatchSize_pos.
Qed.

(** X10.  [BatchGetAssociations] returns a nil set without an error for an
    empty list of identifiers and for nothing else: given identifiers, it
    returns a set (empty when the responses hold no association) or an
    error. *)
Theorem BatchGetAssociations_nil_result fuel
    (config : BatchGetAssociationsConfig.t) st st' :
  BatchGetAssociations service fuel (Some config) st =
    Returned (None, None) st' ↔
  BatchGetAssociationsConfig.Ids config = [] ∧ st' = st.
Proof.
  split.
  - intros Hrun.
    destruct (decide (BatchGetAssociationsConfig.Ids config = []))
      as [Hids|Hids].
    + split; [done|]. unfold BatchGetAssociations in Hrun.
      rewrite Hids in Hrun. cbn [length] in Hrun.
      rewrite decide_True in Hrun by done. by simplify_eq.
    + destruct (BatchGetAssociations_run fuel config st Hids)
        as (xs & ending & _ & _ & _ & Hres). cbn zeta in *.
      rewrite Hrun in Hres. destruct ending; by simplify_eq.
  - intros [Hids ->]. unfold BatchGetAssociations. rewrite Hids.
    cbn [length]. by rewrite decide_True.
Qed.
End ExtraChunks.

Section Silent.
Context {service : Service}.
Implicit Types st : State service.

Lemma ListEngagements_loop_stdout fuel config endpoint :
  ∀ after values engagements st,
    stdout (stateOf (ListEngagements_loop service fuel config endpoint after
                       values engagements st)) = stdout st.
Proof.
  induction fuel as [|fuel IH]; intros after values engagements st; [done|].
  cbn [ListEngagements_loop].
  match goal with
  | |- context [call service ?k ?rc ?m st] =>
      pose proof (call_stdout k rc m st) as Hout;
      destruct (call service k rc m st) as [st1 out]
  end.
  cbn [fst] in Hout. rewrite <-Hout.
  destruct (err out); [done|].
  destruct (match config with Some _ => _ | None => _ end); [done|].
  destruct (EngagementsResponse.Paging _); [|done].
  destruct (decide _); [done|]. apply IH.
Qed.

Lemma GetOwners_loop_stdout fuel config endpoint :
  ∀ after values owners st,
    stdout (stateOf (GetOwners_loop service fuel config endpoint after
                       values owners st)) = stdout st.
Proof.
  induction fuel as [|fuel IH]; intros after values owners st; [done|].
  cbn [GetOwners_loop].
  match goal with
  | |- context [call service ?k ?rc ?m st] =>
      pose proof (call_stdout k rc m st) as Hout;
      destruct (call service k rc m st) as [st1 out]
  end.
  cbn [fst] in Hout. rewrite <-Hout.
  destruct (err out); [done|].
  destruct (match config with Some _ => _ | None => _ end); [done|].
  destruct (OwnersResponse.Paging _); [|done].
  destruct (decide _); [done|]. apply IH.
Qed.

Lemma SearchEngagements_loop_stdout fuel endpoint after :
  ∀ config engagements st,
    stdout (stateOf (SearchEngagements_loop service fuel endpoint after
                       config engagements st)) = stdout st.
Proof.
  induction fuel as [|fuel IH]; intros config engagements st; [done|].
  cbn [SearchEngagements_loop].
  match goal with
  | |- context [call service ?k ?rc ?m st] =>
      pose proof (call_stdout k rc m st) as Hout;
      destruct (call service k rc m st) as [st1 out]
  end.
  cbn [fst] in Hout. rewrite <-Hout.
  destruct (err out); [done|].
  destruct (bool_decide _); [done|].
  destruct (EngagementsResponse.Paging _); [|done].
  destruct (decide _); [done|]. apply IH.
Qed.

Lemma BatchArchiveEngagements_loop_stdout fuel engagementType engagementIds :
  ∀ index st,
    stdout (stateOf (BatchArchiveEngagements_loop service fuel engagementType
                       engagementIds index st)) = stdout st.
Proof.
  induction fuel as [|fuel IH]; intros index st;
    cbn [BatchArchiveEngagements_loop]; destruct (decide _); try done.
  rewrite batchArchiveEngagements_call.
  match goal with
  | |- context [call service ?k ?rc ?m st] =>
      pose proof (call_stdout k rc m st) as Hout;
      destruct (call service k rc m st) as [st1 out]
  end.
  cbn [fst snd] in *. rewrite <-Hout.
  destruct (err out); [done|]. apply IH.
Qed.

Lemma BatchGetAssociations_loop_stdout fuel endpoint :
  ∀ ids set st,
    stdout (stateOf (BatchGetAssociations_loop service fuel endpoint ids set
                       st)) = stdout st.
Proof.
  induction fuel as [|fuel IH]; intros ids set st;
    cbn [BatchGetAssociations_loop]; destruct (decide _); try done.
  match goal with
  | |- context [call service ?k ?rc ?m st] =>
      pose proof (call_stdout k rc m st) as Hout;
      destruct (call service k rc m st) as [st1 out]
  end.
  cbn [fst] in Hout. rewrite <-Hout.
  destruct (err out); [done|].
  destruct (decide _); [apply IH|done].
Qed.

(** X11.  Only the batch create and update print.  The list operations,
    the search, the update of one engagement, the batch archive and the
    association read leave the standard output as it was, however they
    end. *)
Theorem other_operations_print_nothing fuel st :
  (∀ config, printedSince st
               (stateOf (ListEngagements service fuel config st)) = []) ∧
  (∀ config, printedSince st
               (stateOf (GetOwners service fuel config st)) = []) ∧
  (∀ objectType config,
     printedSince st
       (stateOf (SearchEngagements service fuel objectType config st)) = []) ∧
  (∀ config, printedSince st
               (stateOf (UpdateEngagement service config st)) = []) ∧
  (∀ engagementType engagementIds,
     printedSince st
       (stateOf (BatchArchiveEngagements service fuel engagementType
                   engagementIds st)) = []) ∧
  (∀ config, printedSince st
               (stateOf (BatchGetAssociations service fuel config st)) = []).
Proof.
  assert (∀ st' : State service, stdout st' = stdout st →
                                 printedSince st st' = []) as Hsilent.
  { intros st' Hout. apply printedSince_app. by rewrite Hout, app_nil_r. }
  split_and!.
  - intros [config|]; apply Hsilent; [|done].
    unfold ListEngagements. apply ListEngagements_loop_stdout.
  - intros config. apply Hsilent. unfold GetOwners.
    destruct (match config with Some _ => _ | None => _ end).
    apply GetOwners_loop_stdout.
  - intros objectType [config|]; apply Hsilent; [|done].
    unfold SearchEngagements.
    match goal with
    | |- context [call service ?k ?rc ?m st] =>
        pose proof (call_stdout k rc m st) as Hout;
        destruct (call service k rc m st) as [st1 out]
    end.
    cbn [fst] in Hout. rewrite <-Hout.
    destruct (err out); [done|].
    pose proof (SearchEngagements_loop_stdout fuel
                  ("objects/" +:+ objectType +:+ "/search")
                  (SearchObjectsConfig.After config) config [] st1) as Hloop.
    destruct (SearchEngagements_loop _ _ _ _ _ _ _) as [[? ?] ?| |]; done.
  - intros [config|]; apply Hsilent; [|done].
    unfold UpdateEngagement.
    match goal with
    | |- context [call service ?k ?rc ?m st] =>
        pose proof (call_stdout k rc m st) as Hout;
        destruct (call service k rc m st) as [st1 out]
    end.
    cbn [fst] in Hout. by destruct (err out).
  - intros engagementType engagementIds. apply Hsilent.
    apply BatchArchiveEngagements_loop_stdout.
  - intros [config|]; apply Hsilent; [|done].
    unfold BatchGetAssociations. destruct (decide _); [done|].
    apply BatchGetAssociations_loop_stdout.
Qed.
End Silent.

Section ExtraBatchEngagements.
Context {service : Service}.
Implicit Types st : State service.

Lemma progressOf_printedFor batch x :
  progressOf (printedFor batch x) =
  match aborts true x with
  | Some _ => []
  | None => [startIndex batch]
  end.
Proof.
  unfold printedFor, aborts, progressOf. cbn [andb].
  destruct (multiStatus x); [done|]. by destruct (failed x).
Qed.

(** The progress lines of a run: one per chunk that was kept. *)
Lemma BatchRun_progress action config todo xs ending :
  BatchRun true (batchRequest action config <$> todo) xs ending →
  progressOf (concat (zip_with printedFor todo xs)) =
  startIndex <$>
    take (match ending with
          | Failed _ => length xs - 1
          | _ => length xs
          end) todo.
Proof.
  revert xs. induction todo as [|batch todo IH]; intros xs Hrun.
  - inversion Hrun; subst. done.
  - cbn [fmap list_fmap] in Hrun. inversion Hrun as [| |? ? x e Hreq Habort
                                                    |? ? x xs' ? Hreq Hok Hrest];
      subst.
    + done.
    + cbn [zip_with]. rewrite zip_with_nil_r. cbn [concat].
      rewrite app_nil_r, progressOf_printedFor, Habort. done.
    + cbn [zip_with concat]. unfold progressOf. rewrite omap_app.
      fold (progressOf (printedFor batch x)).
      fold (progressOf (concat (zip_with printedFor todo xs'))).
      rewrite progressOf_printedFor, Hok, (IH xs' Hrest). cbn [app length].
      destruct ending as [|e|]; cbn [take fmap list_fmap]; try done.
      assert (0 < length xs') by (inversion Hrest; cbn; lia).
      replace (S (length xs') - 1) with (S (length xs' - 1)) by lia. done.
Qed.

Lemma contiguousFrom_valid start todo n :
  contiguousFrom start todo n → Forall (validBatch n) todo.
Proof.
  revert start. induction todo as [|batch todo IH]; intros start; [done|].
  intros (<- & Hle & Hn & Hrest). constructor; [done|by eapply IH].
Qed.

Lemma contiguousFrom_le start todo n : contiguousFrom start todo n → start ≤ n.
Proof.
  revert start. induction todo as [|batch todo IH]; intros start; cbn.
  - by intros ->.
  - intros (_ & Hle & Hn & _). lia.
Qed.

(** Slices along contiguous batches make up the sequence again. *)
Lemma contiguousFrom_concat {A} (items : list A) start todo :
  contiguousFrom start todo (length items) →
  concat ((λ batch, slice items (startIndex batch) (endIndex batch)) <$> todo)
  = drop start items.
Proof.
  revert start. induction todo as [|batch todo IH]; intros start; cbn.
  - intros ->. by rewrite drop_all.
  - intros (<- & Hle & Hn & Hrest). rewrite (IH _ Hrest). unfold slice.
    transitivity
      (take (endIndex batch - startIndex batch) (drop (startIndex batch) items)
       ++ drop (endIndex batch - startIndex batch)
            (drop (startIndex batch) items)); [|apply take_drop].
    f_equal. rewrite drop_drop. f_equal. lia.
Qed.

Lemma batchInputsOf_planned action config (todo : list Batch) :
  batchInputsOf <$> (batchRequest action config <$> todo) =
  (λ batch, slice (BatchObjectsConfig.Inputs config) (startIndex batch)
              (endIndex batch)) <$> todo.
Proof. rewrite <-list_fmap_compose. by apply list_fmap_ext. Qed.

(** X12.  The progress lines of a batch create or update.  With batches
    that are valid slice bounds, the operation prints one ["batch"] line
    per chunk it kept, with the start index of the chunk, in the order of
    the chunks: for all of them when it returns its results, for those
    before the failing chunk when it returns an error. *)
Theorem batch_progress_lines (config : BatchObjectsConfig.t) st run :
  let todo := batches service (length (BatchObjectsConfig.Inputs config)) in
  let xs := exchangesSince st (stateOf run) in
  Forall (validBatch (length (BatchObjectsConfig.Inputs config))) todo →
  run = BatchCreateEngagements service (Some config) st ∨
  run = BatchUpdateEngagements service (Some config) st →
  (∀ records st', run = Returned (Some records, None) st' →
     progressOf (printedSince st st') = startIndex <$> todo) ∧
  (∀ e st', run = Returned (None, Some e) st' →
     progressOf (printedSince st st') =
     startIndex <$> take (length xs - 1) todo).
Proof.
  intros todo xs Hvalid Hrun.
  assert (∃ action, run = batchEngagements service action (Some config) st)
    as [action ->].
  { destruct Hrun as [->| ->]; by eexists. }
  clear Hrun.
  destruct (batchEngagements_run action config st Hvalid)
    as (xs' & ending & Hxs & Hbatch & Hprinted & Hending & Hres).
  cbn zeta in *. fold todo in Hbatch, Hprinted. fold xs in Hxs. subst xs'.
  pose proof (BatchRun_progress _ _ _ _ _ Hbatch) as Hprogress.
  rewrite <-Hprinted in Hprogress.
  destruct (BatchRun_positions _ _ _ _ Hbatch) as (_ & _ & Hall & _).
  rewrite length_fmap in Hall.
  split.
  - intros records st' Hreturned. rewrite Hreturned in *. cbn [stateOf] in *.
    destruct ending; simplify_eq. rewrite Hprogress, Hall by done.
    by rewrite take_ge.
  - intros e st' Hreturned. rewrite Hreturned in *. cbn [stateOf] in *.
    destruct ending; by simplify_eq.
Qed.

(** X13.  When the batches cut the inputs without gap or overlap, a batch
    create or update that returns its results has submitted every input
    exactly once and in order: the bodies of its requests, one per batch,
    concatenate to [config.Inputs].  In any case the requests made are the
    first batches, each with the slice of its bounds. *)
Theorem contiguous_batches_submit_every_input (config : BatchObjectsConfig.t)
    st run :
  let inputs := BatchObjectsConfig.Inputs config in
  let todo := batches service (length inputs) in
  let xs := exchangesSince st (stateOf run) in
  contiguousFrom 0 todo (length inputs) →
  run = BatchCreateEngagements service (Some config) st ∨
  run = BatchUpdateEngagements service (Some config) st →
  batchInputsOf ∘ request <$> xs =
    take (length xs)
      ((λ batch, slice inputs (startIndex batch) (endIndex batch)) <$> todo) ∧
  (∀ records st', run = Returned (Some records, None) st' →
     length xs = length todo ∧
     concat (batchInputsOf ∘ request <$> xs) = inputs).
Proof.
  intros inputs todo xs Hcontiguous Hrun.
  assert (∃ action, run = batchEngagements service action (Some config) st)
    as [action ->].
  { destruct Hrun as [->| ->]; by eexists. }
  clear Hrun.
  destruct (batchEngagements_run action config st
              (contiguousFrom_valid _ _ _ Hcontiguous))
    as (xs' & ending & Hxs & Hbatch & _ & _ & Hres).
  cbn zeta in *. fold inputs todo in Hbatch. fold xs in Hxs. subst xs'.
  destruct (BatchRun_positions _ _ _ _ Hbatch) as (Hreq & _ & Hall & _).
  rewrite length_fmap in Hall.
  assert (batchInputsOf ∘ request <$> xs =
          take (length xs)
            ((λ batch, slice inputs (startIndex batch) (endIndex batch))
               <$> todo)) as Hbodies.
  { rewrite list_fmap_compose, Hreq, <-fmap_take, batchInputsOf_planned.
    by rewrite fmap_take. }
  split; [done|].
  intros records st' Hreturned. rewrite Hreturned in Hres.
  assert (ending = Stopped) as -> by (destruct ending; by simplify_eq).
  split; [by apply Hall|].
  rewrite Hbodies, Hall by done. rewrite take_ge by (by rewrite length_fmap).
  rewrite (contiguousFrom_concat inputs 0 todo Hcontiguous). apply drop_0.
Qed.
End ExtraBatchEngagements.

Section ExtraSearchRequests.
Context {service : Service}.
Implicit Types st : State service.

(** X14.  A search keeps its criteria: every request of a run of
    [SearchEngagements] is a [POST] on the search endpoint of the object
    type whose body is the caller's configuration, with the same criteria
    and at most the [After] field changed. *)
Theorem SearchEngagements_requests_keep_criteria fuel objectType
    (config : SearchObjectsConfig.t) st x :
  x ∈ exchangesSince st
        (stateOf (SearchEngagements service fuel objectType (Some config)
                    st)) →
  ∃ sent,
    request x = searchRequest objectType sent ∧
    SearchObjectsConfig.Criteria sent = SearchObjectsConfig.Criteria config ∧
    (sent = config ∨
     ∃ cursor, cursor ≠ "" ∧ SearchObjectsConfig.After sent = Some cursor).
Proof.
  intros Hx.
  assert (∀ cursor,
            SearchObjectsConfig.Criteria (storeCursor cursor config) =
            SearchObjectsConfig.Criteria config ∧
            (storeCursor cursor config = config ∨
             ∃ cursor', cursor' ≠ "" ∧
               SearchObjectsConfig.After (storeCursor cursor config) =
               Some cursor')) as Hstore.
  { intros cursor. unfold storeCursor.
    destruct (decide (cursor = "")); [by split; [|left]|].
    split; [done|]. right. by exists cursor. }
  destruct (SearchObjectsConfig.After config) as [cursor|] eqn:Hafter.
  - assert (request x = searchRequest objectType config) as Hreq.
    { destruct fuel as [|fuel].
      - destruct (SearchEngagements_no_fuel objectType config st)
          as (x0 & Hxs & Hreq & _). cbn zeta in *. rewrite Hxs in Hx.
        apply list_elem_of_singleton in Hx as ->. done.
      - destruct (SearchEngagements_twice fuel objectType config cursor st
                    Hafter) as (x0 & Hreq & Hcases). cbn zeta in *.
        destruct (failed x0).
        + destruct Hcases as [Hxs _]. rewrite Hxs in Hx.
          apply list_elem_of_singleton in Hx as ->. done.
        + destruct Hcases as (x1 & Hxs & Hreq' & _). rewrite Hxs in Hx.
          apply elem_of_cons in Hx as [->|Hx]; [done|].
          apply list_elem_of_singleton in Hx as ->. done. }
    exists config. split_and!; [done..|by left].
  - destruct (SearchEngagements_pages fuel objectType config st Hafter)
      as (x0 & xs & ending & Hxs & Hreq & Hcases). cbn zeta in *.
    rewrite Hxs in Hx. apply elem_of_cons in Hx as [->|Hx].
    { exists config. split_and!; [done..|by left]. }
    destruct (failed x0).
    { destruct Hcases as [-> _]. by apply elem_of_nil in Hx. }
    destruct Hcases as (Hchain & _).
    pose proof (CursorChain_requests _ _ _ _ Hchain) as Hall.
    rewrite Forall_forall in Hall. destruct (Hall x Hx) as [cursor Hcursor].
    exists (storeCursor cursor config).
    destruct (Hstore cursor) as [? ?]. done.
Qed.
End ExtraSearchRequests.

(** * Worked examples

    Each property with a premise is applied here to a run against the
    scripted remote side. *)

Section Witnesses.
Import Scripted.

(** Three pages of engagements: three requests, the second and third for
    the cursors of the pages before them, and the four records in order. *)
Example ListEngagements_three_pages :
  let st := start 100 threePages in
  let run := ListEngagements (service 100) 5 (Some (listConfig None)) st in
  run = Returned (Some (engagement <$> ["1"; "2"; "3"; "4"]), None)
          (stateOf run) ∧
  queryOf "after" ∘ request <$> exchangesSince st (stateOf run) =
    [None; Some ["c1"]; Some ["c2"]] ∧
  queryOf "limit" ∘ request <$> exchangesSince st (stateOf run) =
    [Some ["2"]; Some ["2"]; Some ["2"]].
Proof. by vm_compute. Qed.

(** Owners from an explicit cursor: one request, one page. *)
Example GetOwners_from_cursor :
  let st := start 100 threePages in
  let run := GetOwners (service 100) 5 (Some (ownersConfig (Some "c0"))) st in
  run = Returned (Some (owner <$> ["1"; "2"]), None) (stateOf run) ∧
  queryOf "after" ∘ request <$> exchangesSince st (stateOf run) =
    [Some ["c0"]].
Proof. by vm_compute. Qed.

(** Five inputs created in batches of two, the second batch answered with
    a 207 and an error of the transport: all three batches are submitted,
    the results of the second are kept and its errors printed. *)
Example BatchCreateEngagements_partial :
  let st := start 2 secondPartial in
  let run := BatchCreateEngagements (service 2)
               (Some (batchConfig ["a"; "b"; "c"; "d"; "e"])) st in
  run = Returned (Some (engagement <$> ["1"; "2"; "3"; "5"]), None)
          (stateOf run) ∧
  length (exchangesSince st (stateOf run)) = 3 ∧
  printedSince st (stateOf run) =
    [PrintBatch 0; PrintErrors [batchError "4" "refused"]; PrintBatch 2;
     PrintBatch 4].
Proof. by vm_compute. Qed.

(** An update with two properties: the body holds these two and only
    these. *)
Example UpdateEngagement_body :
  let config :=
    {| UpdateEngagementConfig.Type_ := EngagementTypeNote;
       UpdateEngagementConfig.EngagementId := "42";
       UpdateEngagementConfig.Properties :=
         Some {[ "hs_note_body" := "called back"; "hs_timestamp" := "0" ]} |}
  in
  let st := start 100 [page ["42"] None] in
  let run := UpdateEngagement (service 100) (Some config) st in
  (λ x, (sentProperty (BodyModel (request x)) "properties" "hs_note_body",
         sentProperty (BodyModel (request x)) "properties" "hs_timestamp",
         sentProperty (BodyModel (request x)) "properties" "hubspot_owner_id"))
    <$> exchangesSince st (stateOf run) =
  [(Some (JString "called back"), Some (JString "0"), None)].
Proof. by vm_compute. Qed.

Lemma list_without_cursor_follows_pages_witness :
  ListEngagementsConfig.After (listConfig None) = None ∧
  Some (ownersConfig None) ≫= GetOwnersConfig.After = None ∧
  (∃ xs ending,
     exchangesSince (start 100 threePages)
       (stateOf (ListEngagements (service 100) 5 (Some (listConfig None))
                   (start 100 threePages))) = xs ∧
     CursorChain (ListEngagements_request (listConfig None)) "" xs ending ∧
     ListEngagements (service 100) 5 (Some (listConfig None))
       (start 100 threePages) =
     listOutcome (concat (engagementsOf <$> xs)) ending
       (stateOf (ListEngagements (service 100) 5 (Some (listConfig None))
                   (start 100 threePages)))) ∧
  (∃ xs ending,
     exchangesSince (start 100 threePages)
       (stateOf (GetOwners (service 100) 5 (Some (ownersConfig None))
                   (start 100 threePages))) = xs ∧
     CursorChain (GetOwners_request (Some (ownersConfig None))) "" xs
       ending ∧
     GetOwners (service 100) 5 (Some (ownersConfig None))
       (start 100 threePages) =
     listOutcome (concat (ownersOf <$> xs)) ending
       (stateOf (GetOwners (service 100) 5 (Some (ownersConfig None))
                   (start 100 threePages)))).
Proof.
  split; [reflexivity|]. split; [reflexivity|].
  destruct (list_without_cursor_follows_pages (service := service 100) 5
              (listConfig None) (Some (ownersConfig None))
              (start 100 threePages) eq_refl eq_refl)
    as [(xs & ending & Hxs & Hchain & Hrun & _)
        (ys & ending' & Hys & Hchain' & Hrun' & _)].
  split.
  - exists xs, ending. exact (conj Hxs (conj Hchain Hrun)).
  - exists ys, ending'. exact (conj Hys (conj Hchain' Hrun')).
Defined.

Lemma batches_are_contiguous_chunks_witness :
  let ids := replicate 250 "7" in
  let config := associationsConfig ["1"; "2"; "3"] in
  let st := start 100 threePages in
  let run := BatchArchiveEngagements (service 100) 5 EngagementTypeCall
               ids st in
  length ids = 250 ∧
  BatchGetAssociationsConfig.Ids config ≠ [] ∧
  (∃ xs,
     exchangesSince st (stateOf run) = xs ∧
     BatchRun false
       (archiveRequest EngagementTypeCall <$> chunks maxItemsPerBatch ids)
       xs Stopped ∧
     length ∘ inputsOf ∘ request <$> xs = [100; 100; 50]) ∧
  (∃ xs ending,
     exchangesSince st
       (stateOf (BatchGetAssociations (service 100) 5 (Some config) st))
       = xs ∧
     BatchRun false
       (associationsRequest config <$>
          chunks maxBatchSize (BatchGetAssociationsConfig.Ids config))
       xs ending).
Proof.
  intros ids config st run.
  assert (BatchGetAssociationsConfig.Ids config ≠ []) as Hids
    by discriminate.
  split; [reflexivity|]. split; [exact Hids|].
  destruct (batches_are_contiguous_chunks (service := service 100) 5
              EngagementTypeCall ids config st)
    as (_ & (xs & ending & Hxs & Hrun & _ & _ & _ & H250 & Hres) & Hread).
  split.
  - exists xs. split; [exact Hxs|].
    assert (ending = Stopped) as ->.
    { destruct ending as [|e|]; [reflexivity| |];
        vm_compute in Hres; discriminate Hres. }
    split; [exact Hrun|]. exact (H250 eq_refl eq_refl).
  - destruct (Hread Hids) as (ys & ending' & Hys & Hrun' & _).
    exists ys, ending'. exact (conj Hys Hrun').
Defined.


Lemma list_error_returns_no_partial_results_witness :
  let st := start 100 secondFails in
  let run := ListEngagements (service 100) 5 (Some (listConfig None)) st in
  let run' := GetOwners (service 100) 5 None st in
  let run'' := SearchEngagements (service 100) 5 "calls"
                 (Some (searchConfig None)) st in
  (∃ x,
     exchangesSince st (stateOf run) !! 1 = Some x ∧
     failed x = Some (ErrorMessage "bad gateway") ∧
     run = Returned (None, Some (ErrorMessage "bad gateway")) (stateOf run) ∧
     length (exchangesSince st (stateOf run)) = 2) ∧
  (∃ x,
     exchangesSince st (stateOf run') !! 1 = Some x ∧
     failed x = Some (ErrorMessage "bad gateway") ∧
     run' = Returned (None, Some (ErrorMessage "bad gateway"))
              (stateOf run') ∧
     length (exchangesSince st (stateOf run')) = 2) ∧
  (∃ x,
     exchangesSince st (stateOf run'') !! 1 = Some x ∧
     failed x = Some (ErrorMessage "bad gateway") ∧
     (∃ config', run'' = Returned ((None, Some (ErrorMessage "bad gateway")),
                                   config') (stateOf run'')) ∧
     length (exchangesSince st (stateOf run'')) = 2).
Proof.
  intros st run run' run''.
  pose proof (list_error_returns_no_partial_results (service := service 100) 5)
    as (Hengagements & Howners & Hsearch).
  split; [|split].
  - eexists. split; [reflexivity|]. split; [reflexivity|].
    exact (Hengagements (Some (listConfig None)) st 1 _ _ eq_refl eq_refl).
  - eexists. split; [reflexivity|]. split; [reflexivity|].
    exact (Howners None st 1 _ _ eq_refl eq_refl).
  - eexists. split; [reflexivity|]. split; [reflexivity|].
    exact (Hsearch "calls" (Some (searchConfig None)) st 1 _ _
             eq_refl eq_refl).
Defined.

Lemma batch_error_aborts_witness :
  let ids := replicate 250 "7" in
  let st := start 2 secondChunkFails in
  let archive := BatchArchiveEngagements (service 2) 5 EngagementTypeCall
                   ids st in
  let read := BatchGetAssociations (service 2) 5
                (Some (associationsConfig ids)) (start 2 [broken 500 "down"])
  in
  let create := BatchCreateEngagements (service 2)
                  (Some (batchConfig ["a"; "b"; "c"; "d"; "e"])) st in
  (∃ x,
     exchangesSince st (stateOf archive) !! 1 = Some x ∧
     failed x = Some (ErrorMessage "internal error") ∧
     archive = Returned (Some (ErrorMessage "internal error"))
                 (stateOf archive) ∧
     length (exchangesSince st (stateOf archive)) = 2) ∧
  (∃ x,
     exchangesSince (start 2 [broken 500 "down"]) (stateOf read) !! 0
       = Some x ∧
     failed x = Some (ErrorMessage "down") ∧
     read = Returned (None, Some (ErrorMessage "down")) (stateOf read) ∧
     length (exchangesSince (start 2 [broken 500 "down"]) (stateOf read))
       = 1) ∧
  (∃ x,
     exchangesSince st (stateOf create) !! 1 = Some x ∧
     multiStatus x = false ∧
     failed x = Some (ErrorMessage "internal error") ∧
     create = Returned (None, Some (ErrorMessage "internal error"))
                (stateOf create) ∧
     length (exchangesSince st (stateOf create)) = 2).
Proof.
  intros ids st archive read create.
  pose proof (batch_error_aborts (service := service 2) 5)
    as (Harchive & Hread & Hcreate).
  split; [|split].
  - eexists. split; [reflexivity|]. split; [reflexivity|].
    exact (Harchive EngagementTypeCall ids st 1 _ _ eq_refl eq_refl).
  - eexists. split; [reflexivity|]. split; [reflexivity|].
    exact (Hread (Some (associationsConfig ids))
             (start 2 [broken 500 "down"]) 0 _ _ eq_refl eq_refl).
  - eexists. split; [reflexivity|]. split; [reflexivity|].
    split; [reflexivity|].
    exact (Hcreate (Some (batchConfig ["a"; "b"; "c"; "d"; "e"])) st create
             1 _ _ (or_introl eq_refl) eq_refl eq_refl eq_refl).
Defined.

Lemma SearchEngagements_overwrites_After_witness :
  let st := start 100 searchPages in
  let config := searchConfig None in
  ∃ result st',
    SearchObjectsConfig.After config = None ∧
    SearchEngagements (service 100) 5 "calls" (Some config) st =
      Returned (result, Some (searchConfig (Some "c1"))) st' ∧
    ∃ x0 xs final,
      exchangesSince st st' = x0 :: xs ∧
      Some (searchConfig (Some "c1")) = Some final ∧
      SearchObjectsConfig.Criteria final =
        SearchObjectsConfig.Criteria config ∧
      (1 < length xs →
         ∃ x, xs !! (length xs - 2) = Some x ∧ nextCursor x ≠ "" ∧
              SearchObjectsConfig.After final = Some (nextCursor x)).
Proof.
  intros st config. eexists _, _. split; [reflexivity|].
  assert (SearchEngagements (service 100) 5 "calls" (Some config) st =
          Returned (?[result], Some (searchConfig (Some "c1"))) ?[st'])
    as Hrun by (vm_compute; reflexivity).
  split; [exact Hrun|].
  destruct (SearchEngagements_overwrites_After (service := service 100) 5
              "calls" config st _ _ _ eq_refl Hrun)
    as (x0 & xs & final & Hxs & Hfinal & Hcriteria & _ & _ & _ & Hafter).
  exists x0, xs, final.
  exact (conj Hxs (conj Hfinal (conj Hcriteria Hafter))).
Defined.

End Witnesses.

(** * Further worked examples *)

Section MoreWitnesses.
Import Scripted.

Lemma explicit_cursor_fetches_one_page_witness :
  let st := start 100 threePages in
  let run := ListEngagements (service 100) 1 (Some (listConfig (Some ""))) st in
  let run' := GetOwners (service 100) 1 (Some (ownersConfig (Some "c0"))) st in
  ListEngagementsConfig.After (listConfig (Some "")) = Some "" ∧
  GetOwnersConfig.After (ownersConfig (Some "c0")) = Some "c0" ∧
  (∃ x,
     exchangesSince st (stateOf run) = [x] ∧
     queryOf "after" (request x) =
       (if decide ("" = "") then None else Some [""]) ∧
     run = match failed x with
           | Some e => Returned (None, Some e) (stateOf run)
           | None => Returned (Some (engagementsOf x), None) (stateOf run)
           end) ∧
  (∃ x,
     exchangesSince st (stateOf run') = [x] ∧
     queryOf "after" (request x) =
       (if decide ("c0" = "") then None else Some ["c0"]) ∧
     run' = match failed x with
            | Some e => Returned (None, Some e) (stateOf run')
            | None => Returned (Some (ownersOf x), None) (stateOf run')
            end).
Proof.
  intros st run run'. split; [reflexivity|]. split; [reflexivity|].
  destruct (explicit_cursor_fetches_one_page (service := service 100) 0
              (listConfig (Some "")) (ownersConfig (Some "c0")) "" "c0" st
              eq_refl eq_refl)
    as [(x & Hxs & _ & Hquery & Hrun) (y & Hys & _ & Hquery' & Hrun')].
  split.
  - exists x. exact (conj Hxs (conj Hquery Hrun)).
  - exists y. exact (conj Hys (conj Hquery' Hrun')).
Defined.

Lemma list_requests_keep_parameters_witness :
  let st := start 100 threePages in
  let run := ListEngagements (service 100) 5 (Some (listConfig None)) st in
  let run' := GetOwners (service 100) 5 None st in
  (∃ x,
     exchangesSince st (stateOf run) !! 2 = Some x ∧
     Method (request x) = MethodGet ∧
     BodyModel (request x) = NoBody ∧
     queryOf "limit" (request x) = Some ["2"] ∧
     queryOf "properties" (request x) = Some ["hs_call_title"]) ∧
  (∃ x,
     exchangesSince st (stateOf run') !! 2 = Some x ∧
     Method (request x) = MethodGet ∧
     queryOf "limit" (request x) = None).
Proof.
  intros st run run'.
  pose proof (list_requests_keep_parameters (service := service 100) 5)
    as [Hengagements Howners].
  split.
  - destruct (exchangesSince st (stateOf run) !! 2) as [x|] eqn:Hx;
      [|vm_compute in Hx; discriminate Hx].
    exists x. split; [reflexivity|].
    destruct (Hengagements (listConfig None) st x
                (list_elem_of_lookup_2 _ 2 x Hx))
      as (Hmethod & Hbody & _ & Hquery).
    split; [exact Hmethod|]. split; [exact Hbody|]. split.
    + exact (eq_trans (Hquery "limit" ltac:(discriminate)) eq_refl).
    + exact (eq_trans (Hquery "properties" ltac:(discriminate)) eq_refl).
  - destruct (exchangesSince st (stateOf run') !! 2) as [x|] eqn:Hx;
      [|vm_compute in Hx; discriminate Hx].
    exists x. split; [reflexivity|].
    destruct (Howners None st x (list_elem_of_lookup_2 _ 2 x Hx))
      as (Hmethod & _ & _ & Hquery).
    split; [exact Hmethod|].
    exact (Hquery "limit" ltac:(discriminate)).
Defined.

Lemma SearchEngagements_drops_first_response_witness :
  let st := start 100 threePages in
  let config := searchConfig None in
  let run := SearchEngagements (service 100) 5 "calls" (Some config) st in
  SearchObjectsConfig.After config = None ∧
  run = Returned ((Some (engagement <$> ["3"; "4"]), None),
                  Some (searchConfig (Some "c2"))) (stateOf run) ∧
  ∃ x0 xs,
    exchangesSince st (stateOf run) = x0 :: xs ∧
    failed x0 = None ∧
    engagementsOf x0 = engagement <$> ["1"; "2"] ∧
    (∀ x1, xs !! 0 = Some x1 → request x1 = request x0) ∧
    Some (engagement <$> ["3"; "4"]) = Some (concat (engagementsOf <$> xs)).
Proof.
  intros st config run. split; [reflexivity|].
  assert (run = Returned ((Some (engagement <$> ["3"; "4"]), None),
                          Some (searchConfig (Some "c2"))) (stateOf run))
    as Hrun by (vm_compute; reflexivity).
  split; [exact Hrun|].
  destruct (SearchEngagements_drops_first_response (service := service 100) 5
              "calls" config st eq_refl)
    as (x0 & xs & ending & Hxs & _ & Hsame & Hpages & _).
  assert (Some x0 = exchangesSince st (stateOf run) !! 0) as Hx0.
  { fold run in Hxs. rewrite Hxs. reflexivity. }
  vm_compute in Hx0. injection Hx0 as Hx0.
  exists x0, xs. split; [exact Hxs|].
  assert (failed x0 = None) as Hok by (rewrite Hx0; reflexivity).
  split; [exact Hok|]. split; [rewrite Hx0; reflexivity|].
  split; [exact Hsame|].
  destruct (Hpages Hok) as (_ & _ & Hrecords).
  exact (f_equal Some (Hrecords _ _ _ Hrun)).
Defined.

Lemma SearchEngagements_explicit_cursor_keeps_config_witness :
  let st := start 100 threePages in
  let config := searchConfig (Some "c0") in
  ∃ result config' st',
    SearchObjectsConfig.After config = Some "c0" ∧
    SearchEngagements (service 100) 5 "calls" (Some config) st =
      Returned (result, config') st' ∧
    config' = Some config.
Proof.
  intros st config. eexists _, _, _. split; [reflexivity|].
  assert (SearchEngagements (service 100) 5 "calls" (Some config) st =
          Returned (?[result], ?[config']) ?[st'])
    as Hrun by (vm_compute; reflexivity).
  split; [exact Hrun|].
  exact (SearchEngagements_explicit_cursor_keeps_config
           (service := service 100) 5 "calls" config "c0" st _ _ _
           eq_refl Hrun).
Defined.

Lemma batch_request_count_witness :
  let ids := replicate 250 "7" in
  let st := start 100 threePages in
  let archive := BatchArchiveEngagements (service 100) 5 EngagementTypeCall
                   ids st in
  let read := BatchGetAssociations (service 100) 5
                (Some (associationsConfig ids)) st in
  (∃ st', archive = Returned None st' ∧
          length (exchangesSince st (stateOf archive)) =
          (length ids + maxItemsPerBatch - 1) / maxItemsPerBatch) ∧
  (∃ set st', read = Returned (Some set, None) st' ∧
              length (exchangesSince st (stateOf read)) =
              (length ids + maxBatchSize - 1) / maxBatchSize).
Proof.
  intros ids st archive read.
  destruct (batch_request_count (service := service 100) 5 EngagementTypeCall
              ids (associationsConfig ids) st)
    as [(_ & Harchive & _) (_ & Hread)].
  split.
  - assert (archive = Returned None ?[st']) as Hrun
      by (vm_compute; reflexivity).
    eexists. split; [exact Hrun|]. exact (Harchive _ Hrun).
  - assert (read = Returned (Some ?[set], None) ?[st']) as Hrun
      by (vm_compute; reflexivity).
    eexists _, _. split; [exact Hrun|]. exact (Hread _ _ Hrun).
Defined.

Lemma batch_requests_are_full_witness :
  let ids := replicate 250 "7" in
  let st := start 100 threePages in
  let xs := exchangesSince st
              (stateOf (BatchArchiveEngagements (service 100) 5
                          EngagementTypeCall ids st)) in
  ∃ x, xs !! 1 = Some x ∧ 2 < length xs ∧
       length (inputsOf (request x)) = maxItemsPerBatch.
Proof.
  intros ids st xs. eexists. split; [reflexivity|].
  assert (2 < length xs) as Hmore by (vm_compute; repeat constructor).
  split; [exact Hmore|].
  exact (proj1 (batch_requests_are_full (service := service 100) 5)
           EngagementTypeCall ids st 1 _ eq_refl Hmore).
Defined.

Lemma batch_progress_lines_witness :
  let config := batchConfig ["a"; "b"; "c"; "d"; "e"] in
  let st := start 2 secondPartial in
  let run := BatchCreateEngagements (service 2) (Some config) st in
  let st' := start 2 secondChunkFails in
  let run' := BatchUpdateEngagements (service 2) (Some config) st' in
  Forall (validBatch (length (BatchObjectsConfig.Inputs config)))
    (batches (service 2) (length (BatchObjectsConfig.Inputs config))) ∧
  (∃ records, run = Returned (Some records, None) (stateOf run) ∧
     progressOf (printedSince st (stateOf run)) =
     startIndex <$>
       batches (service 2) (length (BatchObjectsConfig.Inputs config))) ∧
  (∃ e, run' = Returned (None, Some e) (stateOf run') ∧
     progressOf (printedSince st' (stateOf run')) =
     startIndex <$>
       take (length (exchangesSince st' (stateOf run')) - 1)
         (batches (service 2) (length (BatchObjectsConfig.Inputs config)))).
Proof.
  intros config st run st' run'.
  assert (Forall (validBatch (length (BatchObjectsConfig.Inputs config)))
            (batches (service 2)
               (length (BatchObjectsConfig.Inputs config)))) as Hvalid
    by (vm_compute; repeat constructor).
  split; [exact Hvalid|]. split.
  - assert (run = Returned (Some ?[records], None) (stateOf run)) as Hrun
      by (vm_compute; reflexivity).
    eexists. split; [exact Hrun|].
    exact (proj1 (batch_progress_lines (service := service 2) config st run
                    Hvalid (or_introl eq_refl)) _ _ Hrun).
  - assert (run' = Returned (None, Some ?[e]) (stateOf run')) as Hrun
      by (vm_compute; reflexivity).
    eexists. split; [exact Hrun|].
    exact (proj2 (batch_progress_lines (service := service 2) config st' run'
                    Hvalid (or_intror eq_refl)) _ _ Hrun).
Defined.

Lemma contiguous_batches_submit_every_input_witness :
  let config := batchConfig ["a"; "b"; "c"; "d"; "e"] in
  let st := start 2 secondPartial in
  let run := BatchCreateEngagements (service 2) (Some config) st in
  contiguousFrom 0
    (batches (service 2) (length (BatchObjectsConfig.Inputs config)))
    (length (BatchObjectsConfig.Inputs config)) ∧
  ∃ records,
    run = Returned (Some records, None) (stateOf run) ∧
    length (exchangesSince st (stateOf run)) = 3 ∧
    concat (batchInputsOf ∘ request <$> exchangesSince st (stateOf run)) =
    BatchObjectsConfig.Inputs config.
Proof.
  intros config st run.
  assert (contiguousFrom 0
            (batches (service 2) (length (BatchObjectsConfig.Inputs config)))
            (length (BatchObjectsConfig.Inputs config))) as Hcontiguous
    by (vm_compute; repeat constructor).
  split; [exact Hcontiguous|].
  assert (run = Returned (Some ?[records], None) (stateOf run)) as Hrun
    by (vm_compute; reflexivity).
  eexists. split; [exact Hrun|].
  exact (proj2 (contiguous_batches_submit_every_input (service := service 2)
                  config st run Hcontiguous (or_introl eq_refl)) _ _ Hrun).
Defined.

Lemma SearchEngagements_requests_keep_criteria_witness :
  let st := start 100 threePages in
  let config := searchConfig None in
  let run := SearchEngagements (service 100) 5 "calls" (Some config) st in
  ∃ x sent,
    exchangesSince st (stateOf run) !! 2 = Some x ∧
    request x = searchRequest "calls" sent ∧
    SearchObjectsConfig.Criteria sent = SearchObjectsConfig.Criteria config.
Proof.
  intros st config run.
  destruct (exchangesSince st (stateOf run) !! 2) as [x|] eqn:Hx;
    [|vm_compute in Hx; discriminate Hx].
  destruct (SearchEngagements_requests_keep_criteria (service := service 100)
              5 "calls" config st x (list_elem_of_lookup_2 _ 2 x Hx))
    as (sent & Hreq & Hcriteria & _).
  exists x, sent. split; [reflexivity|]. exact (conj Hreq Hcriteria).
Defined.
End MoreWitnesses.
